(** * Primavera P6 MCP agent: session store and relay engine

    A shallow embedding of [PrimaveraP6_MCP_Agent/p6_mcp_phase3_2.py]
    (session manager, session resolver, authenticator, relay engine and the
    endpoints built on them), with the properties of its specification
    stated and proved over the embedding.

    Conventions of the embedding.
    - A Python [str] is a [string]; text is taken as its UTF-8 bytes.
    - A Python [dict] is an insertion-ordered association list ([pydict]):
      the order is observable through [max] in [get_latest_session_id].
    - A [float] is the rational it denotes ([Q]).  The code compares
      timestamps, which needs no rounding, and multiplies one by 1000, a
      product that is rounded to the nearest double as IEEE 754 arithmetic
      does ([round_to_double]); overflow and subnormal numbers, far from any
      clock reading, are not represented.
    - A value that the code takes for an [Optional[str]] without checking
      it, the token read off a login reply, is a [pyvalue]: [None], a
      string, or anything else, of which the truth value and the text are
      kept.  A header dictionary shows a value that is not a string as its
      text; [requests] refuses to send such a header, one of the ways in
      which its call raises.
    - The network and the clock are oracles: a function from the history of
      outbound calls to the reply of the next one, and the sequence of clock
      readings.  A call of [requests] that raises (time-out, connection
      failure) is the reply [None].  The text [datetime] gives for a
      timestamp is an oracle too, [None] where the formatting raises.
    - Exceptions are the constructors of [outcome]; state changes made before
      a raise are kept, as in Python.
    - Logging does not change the state and is left out, and so are the
      reading of the snapshot when the process starts, the manifest and
      schema endpoints, and the API-key and CORS set-up. *)

From Stdlib Require Import String Ascii List ZArith QArith Qround Bool Lia Lqa.
From Stdlib Require Import DecimalString DecimalZ DecimalPos Permutation.
Import ListNotations.

Local Open Scope string_scope.
Local Open Scope Z_scope.

(** ** Python strings *)

Module PyStr.

(** [s.startswith(p)] *)
Definition startswith (p s : string) : bool := String.prefix p s.

(** The part of [s] after the first occurrence of [sep], if there is one. *)
Fixpoint after_first (sep s : string) : option string :=
  if String.prefix sep s then
    Some (substring (String.length sep) (String.length s - String.length sep) s)
  else
    match s with
    | EmptyString => None
    | String _ s' => after_first sep s'
    end.

(** The part of [s] before the first occurrence of [sep]; all of [s] when
    [sep] does not occur. *)
Fixpoint before_first (sep s : string) : string :=
  if String.prefix sep s then EmptyString
  else
    match s with
    | EmptyString => EmptyString
    | String c s' => String c (before_first sep s')
    end.

(** [s.split(sep, 1)[-1]] *)
Definition split1_last (sep s : string) : string :=
  match after_first sep s with
  | Some r => r
  | None => s
  end.

(** [s.split(sep, 1)[0]] *)
Definition split1_head (sep s : string) : string := before_first sep s.

(** [s.rstrip(c)] for a single character [c] *)
Fixpoint rstrip (c : ascii) (s : string) : string :=
  match s with
  | EmptyString => EmptyString
  | String a s' =>
      match rstrip c s' with
      | EmptyString => if Ascii.eqb a c then EmptyString else String a EmptyString
      | r => String a r
      end
  end.

(** [sep.join(l)] *)
Fixpoint join (sep : string) (l : list string) : string :=
  match l with
  | [] => EmptyString
  | [x] => x
  | x :: rest => x ++ sep ++ join sep rest
  end.

(** [c in s] *)
Fixpoint contains_char (c : ascii) (s : string) : bool :=
  match s with
  | EmptyString => false
  | String a s' => Ascii.eqb a c || contains_char c s'
  end.

(** [str(n)] for an [int] *)
Definition str_of_int (z : Z) : string := NilZero.string_of_int (Z.to_int z).

(** ASCII lower-casing, as [requests] compares header names. *)
Definition lower_ascii (a : ascii) : ascii :=
  let n := N_of_ascii a in
  if ((65 <=? n) && (n <=? 90))%N then ascii_of_N (n + 32) else a.

Fixpoint lower (s : string) : string :=
  match s with
  | EmptyString => EmptyString
  | String a s' => String (lower_ascii a) (lower s')
  end.

(** A string is truthy when it is not empty. *)
Definition truthy (s : string) : bool :=
  match s with
  | EmptyString => false
  | _ => true
  end.

(** Whether a byte continues a UTF-8 character (it has the form
    [10xxxxxx]). *)
Definition is_continuation (a : ascii) : bool :=
  let n := N_of_ascii a in ((128 <=? n) && (n <? 192))%N.

(** [s[:n]]: the first [n] characters of a text, each a leading byte with
    the continuation bytes that follow it. *)
Fixpoint take_chars (n : nat) (s : string) : string :=
  match s with
  | EmptyString => EmptyString
  | String a s' =>
      if is_continuation a then String a (take_chars n s')
      else
        match n with
        | O => EmptyString
        | S m => String a (take_chars m s')
        end
  end.

(** Every character of [s] satisfies [P]. *)
Fixpoint forall_chars (P : ascii -> bool) (s : string) : bool :=
  match s with
  | EmptyString => true
  | String a s' => P a && forall_chars P s'
  end.

End PyStr.

(** ** Python dictionaries with string keys *)

Module PyDict.

Definition pydict (V : Type) : Type := list (string * V).

Section Ops.
Context {V : Type}.

(** [d.get(k)] *)
Fixpoint get (k : string) (d : pydict V) : option V :=
  match d with
  | [] => None
  | (k', v) :: rest => if String.eqb k' k then Some v else get k rest
  end.

(** [k in d] *)
Definition mem (k : string) (d : pydict V) : bool :=
  match get k d with
  | Some _ => true
  | None => false
  end.

(** [d[k] = v]: an existing key keeps its place, a new key goes last. *)
Fixpoint set (k : string) (v : V) (d : pydict V) : pydict V :=
  match d with
  | [] => [(k, v)]
  | (k', v') :: rest =>
      if String.eqb k' k then (k', v) :: rest else (k', v') :: set k v rest
  end.

(** [del d[k]] *)
Fixpoint del (k : string) (d : pydict V) : pydict V :=
  match d with
  | [] => []
  | (k', v') :: rest =>
      if String.eqb k' k then rest else (k', v') :: del k rest
  end.

(** [d.update(extra)] *)
Definition update (d extra : pydict V) : pydict V :=
  fold_left (fun acc kv => set (fst kv) (snd kv) acc) extra d.

(** [{k: v for k, v in d.items() if keep(k)}] *)
Definition filter_keys (keep : string -> bool) (d : pydict V) : pydict V :=
  filter (fun kv => keep (fst kv)) d.

Definition keys (d : pydict V) : list string := map fst d.

End Ops.

End PyDict.

Import PyDict.

(** ** [urllib.parse]: percent-encoding *)

Module UrlLib.

(** The characters [quote] never encodes: letters, digits and [_.-~]. *)
Definition always_safe (a : ascii) : bool :=
  let n := N_of_ascii a in
  (((65 <=? n) && (n <=? 90)) || ((97 <=? n) && (n <=? 122)) ||
   ((48 <=? n) && (n <=? 57)) ||
   (n =? 95) || (n =? 46) || (n =? 45) || (n =? 126))%N.

Definition hex_digit (n : N) : ascii :=
  if (n <? 10)%N then ascii_of_N (48 + n) else ascii_of_N (55 + n).

(** ["%{:02X}".format(byte)] *)
Definition percent (a : ascii) : string :=
  let n := N_of_ascii a in
  String "%" (String (hex_digit (n / 16)) (String (hex_digit (n mod 16)) EmptyString)).

Definition quote_char (safe : string) (a : ascii) : string :=
  if always_safe a || PyStr.contains_char a safe
  then String a EmptyString else percent a.

(** [urllib.parse.quote(s, safe)] *)
Fixpoint quote (safe : string) (s : string) : string :=
  match s with
  | EmptyString => EmptyString
  | String a s' => quote_char safe a ++ quote safe s'
  end.

(** [s.replace(' ', '+')] *)
Fixpoint spaces_to_plus (s : string) : string :=
  match s with
  | EmptyString => EmptyString
  | String a s' =>
      String (if Ascii.eqb a " " then "+"%char else a) (spaces_to_plus s')
  end.

(** [urllib.parse.quote_plus(s)], with its default [safe=''] *)
Definition quote_plus (s : string) : string :=
  if PyStr.contains_char " " s
  then spaces_to_plus (quote " " s)
  else quote "" s.

(** Values of a query dictionary: a scalar or a list of scalars.  Floats
    and nested dictionaries are not represented. *)
Inductive qscalar : Type :=
| QStr (s : string)
| QInt (z : Z)
| QBool (b : bool)
| QNone.

Inductive qvalue : Type :=
| QScalar (x : qscalar)
| QList (l : list qscalar).

(** [str(x)] *)
Definition str_of_scalar (x : qscalar) : string :=
  match x with
  | QStr s => s
  | QInt z => PyStr.str_of_int z
  | QBool true => "True"
  | QBool false => "False"
  | QNone => "None"
  end.

(** The [key=value] pairs [urlencode(..., doseq=True)] collects for one
    entry: one pair for a scalar, one pair per element for a list. *)
Definition pairs_of_entry (kv : string * qvalue) : list string :=
  let k := quote_plus (fst kv) in
  match snd kv with
  | QScalar x => [k ++ "=" ++ quote_plus (str_of_scalar x)]
  | QList l => map (fun elt => k ++ "=" ++ quote_plus (str_of_scalar elt)) l
  end.

(** [urllib.parse.urlencode(params, doseq=True)] *)
Definition urlencode (params : pydict qvalue) : string :=
  PyStr.join "&" (flat_map pairs_of_entry params).

(** The characters of an encoded query string: the unreserved ones, the
    percent sign of an escape, the plus that stands for a space, and the
    separators [=] and [&]. *)
Definition query_char (a : ascii) : bool :=
  always_safe a || Ascii.eqb a "%" || Ascii.eqb a "+" ||
  Ascii.eqb a "=" || Ascii.eqb a "&".

End UrlLib.

(** ** Data model *)

Record SavedCreds : Type := mkSavedCreds {
  username : string;
  password : string;
  creds_database_name : string
}.

(** A value the code holds where it expects [Optional[str]]: [None], a
    string, or any other value (a JSON number, boolean, array or object),
    of which its truth value and its text are kept. *)
Inductive pyvalue : Type :=
| VNone
| VStr (s : string)
| VOther (truth : bool) (repr : string).

(** [bool(v)] *)
Definition py_truthy (v : pyvalue) : bool :=
  match v with
  | VNone => false
  | VStr s => PyStr.truthy s
  | VOther truth _ => truth
  end.

(** The text a header dictionary shows for a value. *)
Definition py_text (v : pyvalue) : string :=
  match v with
  | VNone => "None"
  | VStr s => s
  | VOther _ repr => repr
  end.

(** What pydantic accepts for a field declared [Optional[str]]. *)
Definition is_optional_str (v : pyvalue) : bool :=
  match v with
  | VNone | VStr _ => true
  | VOther _ _ => false
  end.

(** [Session.auth_token] is declared [Optional[str]]; it is checked when a
    session is constructed and not when the field is assigned. *)
Record Session : Type := mkSession {
  cookies : string;
  auth_token : pyvalue;
  created_at : Q;
  database_name : option string;
  creds : option SavedCreds
}.

(** What [r.json()] gives: it raises, or it returns a document.  Of a
    document what [_try_login] reads is kept: whether it is an object and,
    if so, its members, each [null], a string or another value. *)
Inductive json_doc : Type :=
| JsonInvalid
| JsonNotObject
| JsonObject (members : pydict pyvalue).

(** A [requests.Response]. Header names compare case-insensitively.
    [first_object_id] is what [projects_by_obs] reads off the reply to its
    OBS look-up: [str(items[0].get("ObjectId"))], where [items] is the body
    taken as a list (the parsed document, or [json.loads] of the text);
    [None] when that computation raises, as it does for an empty list. *)
Record Response : Type := mkResponse {
  status_code : Z;
  resp_headers : list (string * string);
  resp_cookies : list (string * string);
  text : string;
  json : json_doc;
  first_object_id : option string
}.

(** [r.headers.get(name)] *)
Fixpoint headers_get (name : string) (h : list (string * string)) : option string :=
  match h with
  | [] => None
  | (k, v) :: rest =>
      if String.eqb (PyStr.lower k) (PyStr.lower name) then Some v
      else headers_get name rest
  end.

(** A request body as the caller gave it: a mapping or sequence, or
    anything else. *)
Inductive pyany : Type :=
| AnyDictOrList (repr : string)
| AnyOther (repr : string).

(** Outbound calls, as they are handed to [requests]. *)
Inductive event : Type :=
| EvRequest (method url : string) (headers : pydict string)
            (data json_body : option pyany)
| EvLogin (url : string) (headers : pydict string).

Definition is_request (e : event) : bool :=
  match e with EvRequest _ _ _ _ _ => true | EvLogin _ _ => false end.

Definition is_login (e : event) : bool :=
  match e with EvLogin _ _ => true | EvRequest _ _ _ _ _ => false end.

Definition count_requests (l : list event) : nat := length (filter is_request l).
Definition count_logins (l : list event) : nat := length (filter is_login l).

(** The state of the process and of its surroundings: the session
    manager's dictionary, the snapshot file ([None]: no file), whether the
    file can be written, the outbound calls made so far, and how many times
    the clock has been read. *)
Record World : Type := mkWorld {
  sessions : pydict Session;
  disk : option (pydict Session);
  disk_writable : bool;
  trace : list event;
  clock_reads : nat
}.

(** ** Exceptions and state *)

Inductive outcome (A : Type) : Type :=
| Ok (a : A)
| HTTPException (status : Z) (detail : string)
| OtherException.

Arguments Ok {A} a.
Arguments HTTPException {A} status detail.
Arguments OtherException {A}.

Definition M (A : Type) : Type := World -> outcome A * World.

Definition ret {A} (a : A) : M A := fun w => (Ok a, w).

Definition bind {A B} (m : M A) (f : A -> M B) : M B :=
  fun w =>
    match m w with
    | (Ok a, w') => f a w'
    | (HTTPException s d, w') => (HTTPException s d, w')
    | (OtherException, w') => (OtherException, w')
    end.

Definition raise_http {A} (status : Z) (detail : string) : M A :=
  fun w => (HTTPException status detail, w).

Definition raise_other {A} : M A := fun w => (OtherException, w).

(** [try: m  except HTTPException: handler] *)
Definition catch_http {A} (m : M A) (handler : M A) : M A :=
  fun w =>
    match m w with
    | (HTTPException _ _, w') => handler w'
    | r => r
    end.

Definition gets {A} (f : World -> A) : M A := fun w => (Ok (f w), w).
Definition modify (f : World -> World) : M unit := fun w => (Ok tt, f w).

Declare Scope py_scope.
Delimit Scope py_scope with py.
Notation "x <- m ;; k" := (bind m (fun x => k))
  (at level 61, m at next level, right associativity) : py_scope.
Notation "m ;;; k" := (bind m (fun _ => k))
  (at level 61, right associativity) : py_scope.
Local Open Scope py_scope.

Definition set_sessions (d : pydict Session) (w : World) : World :=
  mkWorld d (disk w) (disk_writable w) (trace w) (clock_reads w).

Definition set_disk (f : option (pydict Session)) (w : World) : World :=
  mkWorld (sessions w) f (disk_writable w) (trace w) (clock_reads w).

Definition log_event (e : event) (w : World) : World :=
  mkWorld (sessions w) (disk w) (disk_writable w) (trace w ++ [e]) (clock_reads w).

Definition tick (w : World) : World :=
  mkWorld (sessions w) (disk w) (disk_writable w) (trace w) (S (clock_reads w)).

(** ** The program *)

(** [(url.split("//", 1)[-1]).split("/", 1)[0]]: the host the code reads
    off a URL. *)
Definition host_of (url : string) : string :=
  PyStr.split1_head "/" (PyStr.split1_last "//" url).

(** [int(x)] for a float: truncation towards zero. *)
Definition int_of_float (x : Q) : Z := Z.quot (Qnum x) (Zpos (Qden x)).

(** The integer nearest to [n / d], the even one of two equally near. *)
Definition round_half_even (n d : Z) : Z :=
  let q := n / d in
  match 2 * (n mod d) ?= d with
  | Lt => q
  | Gt => q + 1
  | Eq => if Z.even q then q else q + 1
  end.

(** The exponent [e] of a positive rational: [2^e <= n / d < 2^(e+1)]. *)
Definition binary_exponent (n d : positive) : Z :=
  let e := Z.log2 (Zpos n) - Z.log2 (Zpos d) in
  if Zpos d * 2 ^ Z.max 0 e <=? Zpos n * 2 ^ Z.max 0 (- e) then e else e - 1.

(** The double nearest to a positive rational: 53 significant bits, ties
    to the even significand. *)
Definition round_positive (n d : positive) : Q :=
  let shift := 52 - binary_exponent n d in
  let significand :=
    round_half_even (Zpos n * 2 ^ Z.max 0 shift)
                    (Zpos d * 2 ^ Z.max 0 (- shift)) in
  if 0 <=? shift
  then Qmake significand (Z.to_pos (2 ^ shift))
  else inject_Z (significand * 2 ^ (- shift)).

(** The result of a floating-point operation whose exact value is [x]. *)
Definition round_to_double (x : Q) : Q :=
  match Qnum x with
  | Z0 => 0%Q
  | Zpos n => round_positive n (Qden x)
  | Zneg n => Qopp (round_positive n (Qden x))
  end.

Definition retry_dropped_keys : list string :=
  ["Cookie"; "AuthToken"; "Accept"; "Version"].

Definition not_in_dropped (k : string) : bool :=
  negb (existsb (String.eqb k) retry_dropped_keys).

Record LoginRequest : Type := mkLoginRequest {
  lr_username : string;
  lr_password : string;
  lr_databaseName : string;
  lr_remember : bool
}.

Record LoginResponse : Type := mkLoginResponse {
  lresp_session_id : string;
  lresp_cookies : string;
  lresp_authToken : pyvalue;
  lresp_remember : bool
}.

Record CallRequest : Type := mkCallRequest {
  cr_session_id : option string;
  cr_method : string;
  cr_path : string;
  cr_query : option (pydict UrlLib.qvalue);
  cr_headers : option (pydict string);
  cr_body : option pyany
}.

Inductive proxy_body : Type :=
| BodyJson (doc : json_doc)
| BodyText (t : string).

Record ProxyResponse : Type := mkProxyResponse {
  pr_status : Z;
  pr_headers : list (string * string);
  pr_body : proxy_body
}.

Record ActiveSession : Type := mkActiveSession {
  as_session_id : string;
  as_created_at : string;
  as_auto_login_enabled : bool;
  as_database : option string
}.

(** ** A concrete deployment

    A configuration, two upstream services that turn every request away
    with a 401 (one accepts the login, one refuses it), and small stores;
    the examples further down run the program on them. *)

Module Examples.

Definition base_url : string := "https://p6.example.com/p6ws/restapi".
Definition accept : string := "application/json".
Definition version : string := "".
Definition allowed_host : string := "p6.example.com".

Definition alice : SavedCreds := mkSavedCreds "alice" "secret" "db1".

Definition remembering : Session :=
  mkSession "JSESSIONID=old" (VStr "tok-old") (100 # 1) (Some "db1") (Some alice).

Definition forgetful : Session :=
  mkSession "JSESSIONID=old" (VStr "tok-old") (100 # 1) (Some "db1") None.

Definition reply (status : Z) : Response :=
  mkResponse status [] [] "" JsonInvalid None.

(** A login reply with a fresh cookie and no token anywhere. *)
Definition login_reply : Response :=
  mkResponse 200 [] [("JSESSIONID", "new")] "" JsonInvalid None.

Definition rejecting (login_answer : Response) (history : list event)
    (e : event) : option Response :=
  match e with
  | EvRequest _ _ _ _ _ => Some (reply 401)
  | EvLogin _ _ => Some login_answer
  end.

Definition upstream_accepting_login := rejecting login_reply.
Definition upstream_refusing_login := rejecting (reply 403).

Definition store_of (d : pydict Session) : World :=
  mkWorld d (Some d) true [] 0.

Definition world_remembering : World := store_of [("1", remembering)].
Definition world_forgetful : World := store_of [("1", forgetful)].
Definition world_empty : World := store_of [].

(** Two sessions created at the same instant, ["1"] stored before ["2"]. *)
Definition world_tied : World :=
  store_of [("1", forgetful); ("2", forgetful)].

(** A clock that stands still, at the double nearest to 1730671234.001,
    and one that advances a second a reading. *)
Definition clock_still (n : nat) : Q := 3629480639727665 # 2097152.
Definition clock_running (n : nat) : Q := inject_Z (1000 + Z.of_nat n).

(** The formatting of timestamps, from 1970 to the end of the year 9999:
    the time is rounded to microseconds, the calendar is the Gregorian
    one. *)
Definition two_digits (z : Z) : string :=
  if z <? 10 then "0" ++ PyStr.str_of_int z else PyStr.str_of_int z.

Definition civil_of_days (days : Z) : Z * Z * Z :=
  let z := days + 719468 in
  let era := z / 146097 in
  let doe := z - era * 146097 in
  let yoe := (doe - doe / 1460 + doe / 36524 - doe / 146096) / 365 in
  let doy := doe - (365 * yoe + yoe / 4 - yoe / 100) in
  let mp := (5 * doy + 2) / 153 in
  let d := doy - (153 * mp + 2) / 5 + 1 in
  let m := if mp <? 10 then mp + 3 else mp - 9 in
  (yoe + era * 400 + (if m <=? 2 then 1 else 0), m, d).

Definition utc_text (t : Q) : option string :=
  let seconds :=
    round_half_even (Qnum t * 1000000) (Zpos (Qden t)) / 1000000 in
  let s := seconds mod 86400 in
  match civil_of_days (seconds / 86400) with
  | (y, m, d) =>
      if (1970 <=? y) && (y <=? 9999) then
        Some (PyStr.str_of_int y ++ "-" ++ two_digits m ++ "-" ++
              two_digits d ++ " " ++ two_digits (s / 3600) ++ ":" ++
              two_digits (s mod 3600 / 60) ++ ":" ++ two_digits (s mod 60) ++
              " UTC")
      else None
  end.

Definition obs_url : string := "https://p6.example.com/p6ws/restapi/obs".

Definition login_request : LoginRequest :=
  mkLoginRequest "alice" "secret" "db1" true.

End Examples.

(** Further stores and upstream services for the examples. *)

Module MoreExamples.
Import Examples.

(** A reply that announces JSON and carries something else. *)
Definition reply_not_json : Response :=
  mkResponse 200 [("content-type", "application/json")] [] "oops"
    JsonInvalid None.

(** The same reply with the header name in its usual spelling. *)
Definition reply_not_json_capitals : Response :=
  mkResponse 200 [("Content-Type", "application/json")] [] "oops"
    JsonInvalid None.

(** A login reply whose JSON body holds a number for the token. *)
Definition login_reply_numeric : Response :=
  mkResponse 200 [("content-type", "application/json")]
    [("JSESSIONID", "new")] "{'token': 123}"
    (JsonObject [("token", VOther true "123")]) None.

(** A session created in the year 10000. *)
Definition far_future : Session :=
  mkSession "JSESSIONID=z" VNone (253402300800 # 1) (Some "db1") None.

Definition answering (answer : Response) (history : list event) (e : event)
  : option Response :=
  match e with
  | EvRequest _ _ _ _ _ => Some answer
  | EvLogin _ _ => Some login_reply
  end.

Definition world_unwritable : World :=
  mkWorld [("1", forgetful)] None false [] 0.

Definition older : Session :=
  mkSession "JSESSIONID=a" VNone (100 # 1) (Some "db1") None.
Definition newer : Session :=
  mkSession "JSESSIONID=b" VNone (200 # 1) (Some "db1") None.

Definition override_call : CallRequest :=
  mkCallRequest (Some "1") "GET" "/obs" None
    (Some [("X-Trace", "t1"); ("Cookie", "mine")]) None.

End MoreExamples.

(** The outbound calls made between two states of the world. *)
Definition events_since (w w' : World) : list event :=
  skipn (length (trace w)) (trace w').

Section Agent.

(** Configuration, read from the environment when the module is loaded. *)
Variables P6_BASE_URL P6_ACCEPT P6_VERSION ALLOWED_HOST : string.
Variables AUTO_SESSION_ENABLED AUTO_SESSION_STRICT_MODE : bool.

(** The upstream service as [requests] reaches it with the settings of
    this server (its time-out, and whether certificates are verified): its
    reply to an outbound call, given the calls made before it. *)
Variable upstream : list event -> event -> option Response.

(** The clock: the value of the n-th call of [time.time()]. *)
Variable time_time : nat -> Q.

(** [datetime.utcfromtimestamp(t).strftime("%Y-%m-%d %H:%M:%S UTC")];
    [None] where [utcfromtimestamp] raises, as it does for a timestamp
    outside the years 1 to 9999. *)
Variable strftime_utc : Q -> option string.

Definition DEFAULT_ALLOWED_HOST : string := host_of P6_BASE_URL.

(** *** SessionManager *)

Definition _save_to_disk : M unit :=
  fun w =>
    if disk_writable w
    then (Ok tt, set_disk (Some (sessions w)) w)
    else (Ok tt, w).

Definition add_session (session_id : string) (session : Session) : M unit :=
  modify (fun w => set_sessions (set session_id session (sessions w)) w) ;;;
  _save_to_disk.

Definition get_session (session_id : string) : M (option Session) :=
  gets (fun w => get session_id (sessions w)).

(** [max(items, key=...)] on a non-empty sequence: the first item is kept
    until a later one has a strictly greater key. *)
Definition max_step {A} (key : A -> Q) (best x : A) : A :=
  if Qle_bool (key x) (key best) then best else x.

Definition py_max_by {A} (key : A -> Q) (first : A) (rest : list A) : A :=
  fold_left (max_step key) rest first.

Definition latest_of (d : pydict Session) : option string :=
  match d with
  | [] => None
  | kv :: rest => Some (fst (py_max_by (fun kv => created_at (snd kv)) kv rest))
  end.

Definition get_latest_session_id : M (option string) :=
  gets (fun w => latest_of (sessions w)).

Definition get_latest_session : M (option (string * Session)) :=
  sid <- get_latest_session_id ;;
  match sid with
  | Some s =>
      if PyStr.truthy s then
        fun w =>
          match get s (sessions w) with
          | Some ses => (Ok (Some (s, ses)), w)
          | None => (OtherException, w)
          end
      else ret None
  | None => ret None
  end.

Definition remove_session (session_id : string) : M unit :=
  present <- gets (fun w => mem session_id (sessions w)) ;;
  if present : bool then
    modify (fun w => set_sessions (del session_id (sessions w)) w) ;;;
    _save_to_disk
  else ret tt.

Definition clear_all : M unit :=
  modify (set_sessions []) ;;;
  _save_to_disk.

(** [time.time()] *)
Definition read_clock : M Q :=
  fun w => (Ok (time_time (clock_reads w)), tick w).

(** [int(t * 1000)]: the millisecond count the code computes from a clock
    reading, the product being a double. *)
Definition millis (t : Q) : Z := int_of_float (round_to_double (t * 1000)%Q).

Definition _mk_session_id : M string :=
  t <- read_clock ;;
  ret (PyStr.str_of_int (millis t)).

(** *** Utilities *)

Definition normalize_path (path : string) : string :=
  if PyStr.startswith "/" path then path else "/" ++ path.

Definition _build_target_url (path : string)
    (query : option (pydict UrlLib.qvalue)) : string :=
  let path := normalize_path path in
  let base := PyStr.rstrip "/" P6_BASE_URL in
  let params := match query with Some q => q | None => [] end in
  match params with
  | [] => base ++ path
  | _ => base ++ path ++ "?" ++ UrlLib.urlencode params
  end.

(** The headers [_default_headers] sets by itself.  The token goes in
    when it is truthy, whatever it is; one that is not a string shows as
    its text. *)
Definition base_headers (ses : Session) : pydict string :=
  let headers := [("Accept", P6_ACCEPT); ("Cookie", cookies ses)] in
  let headers :=
    if PyStr.truthy P6_VERSION then set "Version" P6_VERSION headers
    else headers in
  if py_truthy (auth_token ses)
  then set "AuthToken" (py_text (auth_token ses)) headers
  else headers.

Definition _default_headers (ses : Session) (extra : option (pydict string))
  : pydict string :=
  let headers := base_headers ses in
  match extra with
  | Some (kv :: more) => update headers (kv :: more)
  | _ => headers
  end.

Definition _extract_cookies (resp : Response) : string :=
  PyStr.join "; " (map (fun c => fst c ++ "=" ++ snd c) (resp_cookies resp)).

(** [requests.request(...)] / [requests.post(...)]: the call is recorded
    and the upstream's reply returned; no reply is an exception of
    [requests]. *)
Definition send (e : event) : M Response :=
  fun w =>
    match upstream (trace w) e with
    | Some r => (Ok r, log_event e w)
    | None => (OtherException, log_event e w)
    end.

(** [a or b] *)
Definition or_else (a b : pyvalue) : pyvalue :=
  if py_truthy a then a else b.

(** [not a] *)
Definition is_falsy (a : pyvalue) : bool := negb (py_truthy a).

(** [data.get(k)] *)
Definition member (k : string) (members : pydict pyvalue) : pyvalue :=
  match get k members with
  | Some v => v
  | None => VNone
  end.

(** [r.headers.get(name)], as a value. *)
Definition header_value (name : string) (r : Response) : pyvalue :=
  match headers_get name (resp_headers r) with
  | Some v => VStr v
  | None => VNone
  end.

Definition login_url (database_name_ : string) : string :=
  P6_BASE_URL ++ "/login?DatabaseName=" ++ UrlLib.quote "/" database_name_.

Definition login_headers (username_ password_ : string) : pydict string :=
  let headers :=
    [("username", username_); ("password", password_); ("Accept", P6_ACCEPT)] in
  if PyStr.truthy P6_VERSION then set "Version" P6_VERSION headers else headers.

Definition login_event (username_ password_ database_name_ : string) : event :=
  EvLogin (login_url database_name_) (login_headers username_ password_).

Definition content_type (r : Response) : string :=
  match headers_get "content-type" (resp_headers r) with
  | Some c => c
  | None => ""
  end.

(** The token [_try_login] reads off a successful login reply. *)
Definition token_of (r : Response) : pyvalue :=
  let auth_token :=
    or_else (header_value "AuthToken" r) (header_value "X-Auth-Token" r) in
  if is_falsy auth_token && PyStr.startswith "application/json" (content_type r)
  then
    match json r with
    | JsonObject data =>
        or_else (or_else (member "AuthToken" data) (member "authToken" data))
                (member "token" data)
    | JsonInvalid | JsonNotObject => auth_token
    end
  else auth_token.

Definition _try_login (username_ password_ database_name_ : string)
  : M (string * pyvalue) :=
  r <- send (login_event username_ password_ database_name_) ;;
  if status_code r >=? 400 then
    raise_http (status_code r)
               ("Re-login failed: " ++ PyStr.take_chars 500 (text r))
  else
    ret (_extract_cookies r, token_of r).

(** [ses.cookies = ...; ses.auth_token = ...] on the object held by the
    session manager under [ses_id]. *)
Definition with_credentials (ses : Session) (c : string) (t : pyvalue)
  : Session :=
  mkSession c t (created_at ses) (database_name ses) (creds ses).

Definition retry_headers (ses : Session) (headers : pydict string)
  : pydict string :=
  _default_headers ses (Some (filter_keys not_in_dropped headers)).

Definition _upstream_with_retry (ses_id method url : string)
    (headers : pydict string) (data json_body : option pyany) : M Response :=
  ses <- get_session ses_id ;;
  match ses with
  | None =>
      raise_http 401 "Invalid or expired session_id. Please login again."
  | Some ses =>
      let host := host_of url in
      if negb (String.eqb host ALLOWED_HOST) then
        raise_http 400 ("Host not allowed: " ++ host)
      else
        r <- send (EvRequest method url headers data json_body) ;;
        if negb (status_code r =? 401) then ret r
        else
          match creds ses with
          | Some c =>
              catch_http
                (nt <- _try_login (username c) (password c)
                                  (creds_database_name c) ;;
                 let ses' := with_credentials ses (fst nt) (snd nt) in
                 modify (fun w =>
                   set_sessions (set ses_id ses' (sessions w)) w) ;;;
                 send (EvRequest method url (retry_headers ses' headers)
                                 data json_body))
                (ret r)
          | None => ret r
          end
  end.

(** *** Session resolution *)

Definition provided_truthy (p : option string) : option string :=
  match p with
  | Some s => if PyStr.truthy s then Some s else None
  | None => None
  end.

Definition _get_session_id_or_latest (provided_session_id : option string)
  : M string :=
  match provided_truthy provided_session_id with
  | Some s => ret s
  | None =>
      if negb AUTO_SESSION_ENABLED then
        raise_http 401 "session_id required (AUTO_SESSION_ENABLED is disabled)"
      else
        latest_sid <- get_latest_session_id ;;
        match provided_truthy latest_sid with
        | None =>
            if AUTO_SESSION_STRICT_MODE then
              raise_http 401
                "No active session found. Please login first via /login"
            else raise_http 401 "No sessions available"
        | Some s => ret s
        end
  end.

(** *** Endpoints *)

(** [POST /login].  [Session(...)] checks its fields, the default of
    [created_at] being taken from the clock on the way, and raises a
    [ValidationError] for a token that is neither [None] nor a string. *)
Definition login (req : LoginRequest) : M LoginResponse :=
  ct <- _try_login (lr_username req) (lr_password req) (lr_databaseName req) ;;
  ses_id <- _mk_session_id ;;
  now <- read_clock ;;
  if negb (is_optional_str (snd ct)) then raise_other
  else
    let session :=
      mkSession (fst ct) (snd ct) now (Some (lr_databaseName req))
        (if lr_remember req
         then Some (mkSavedCreds (lr_username req) (lr_password req)
                                 (lr_databaseName req))
         else None) in
    add_session ses_id session ;;;
    ret (mkLoginResponse ses_id (fst ct) (snd ct) (lr_remember req)).

Definition classify_body (body : option pyany)
  : option pyany * option pyany :=
  match body with
  | Some (AnyDictOrList b) => (None, Some (AnyDictOrList b))
  | Some (AnyOther b) => (Some (AnyOther b), None)
  | None => (None, None)
  end.

(** [{k: v for k, v in r.headers.items()}.get("content-type", "")]: the
    copy is a plain dictionary, so the name is matched exactly. *)
Definition out_content_type (r : Response) : string :=
  match get "content-type" (resp_headers r) with
  | Some c => c
  | None => ""
  end.

(** The body of a [ProxyResponse] under [try]: the parsed document when
    the content type says JSON and the text parses, the text otherwise. *)
Definition body_of (ctype : string) (r : Response) : proxy_body :=
  if PyStr.startswith "application/json" ctype then
    match json r with
    | JsonInvalid => BodyText (text r)
    | doc => BodyJson doc
    end
  else BodyText (text r).

Definition _json_or_text (r : Response) : proxy_body :=
  body_of (content_type r) r.

(** [r.json() if ... else r.text], outside any [try]. *)
Definition body_of_strict (ctype : string) (r : Response) : M proxy_body :=
  if PyStr.startswith "application/json" ctype then
    match json r with
    | JsonInvalid => raise_other
    | doc => ret (BodyJson doc)
    end
  else ret (BodyText (text r)).

Definition fetch_session (ses_id detail : string) : M Session :=
  ses <- get_session ses_id ;;
  match ses with
  | Some s => ret s
  | None => raise_http 401 detail
  end.

(** [POST /call] *)
Definition call (req : CallRequest) : M ProxyResponse :=
  ses_id <- _get_session_id_or_latest (cr_session_id req) ;;
  ses <- fetch_session ses_id
           "Invalid or expired session_id. Please login again." ;;
  let url := _build_target_url (cr_path req) (cr_query req) in
  let headers :=
    _default_headers ses
      (Some (match cr_headers req with Some h => h | None => [] end)) in
  let db := classify_body (cr_body req) in
  r <- _upstream_with_retry ses_id (cr_method req) url headers (fst db) (snd db) ;;
  ret (mkProxyResponse (status_code r) (resp_headers r)
         (body_of (out_content_type r) r)).

(** [GET /obs/byName] *)
Definition obs_by_name (session_id : option string)
    (name fields order_by : string) : M ProxyResponse :=
  ses_id <- _get_session_id_or_latest session_id ;;
  ses <- fetch_session ses_id
           "Invalid or expired session_id. Please login again." ;;
  let q := [("Filter", UrlLib.QScalar (UrlLib.QStr ("Name='" ++ name ++ "'")));
            ("Fields", UrlLib.QScalar (UrlLib.QStr fields));
            ("OrderBy", UrlLib.QScalar (UrlLib.QStr order_by))] in
  let url := _build_target_url "/obs" (Some q) in
  let headers := _default_headers ses None in
  r <- _upstream_with_retry ses_id "GET" url headers None None ;;
  body <- body_of_strict (out_content_type r) r ;;
  ret (mkProxyResponse (status_code r) (resp_headers r) body).

Definition with_limit (limit : option Z) (q : pydict UrlLib.qvalue)
  : pydict UrlLib.qvalue :=
  match limit with
  | Some n =>
      if n =? 0 then q
      else set "MaxObjects" (UrlLib.QScalar (UrlLib.QInt n)) q
  | None => q
  end.

(** [GET /projects/list] *)
Definition projects_list (session_id filter_ : option string)
    (fields order_by : string) (limit : option Z) : M ProxyResponse :=
  ses_id <- _get_session_id_or_latest session_id ;;
  ses <- fetch_session ses_id
           "Invalid or expired session_id. Please login again." ;;
  let q := [("Fields", UrlLib.QScalar (UrlLib.QStr fields));
            ("OrderBy", UrlLib.QScalar (UrlLib.QStr order_by))] in
  let q :=
    match provided_truthy filter_ with
    | Some f => set "Filter" (UrlLib.QScalar (UrlLib.QStr f)) q
    | None => q
    end in
  let q := with_limit limit q in
  let url := _build_target_url "/project" (Some q) in
  let headers := _default_headers ses None in
  r <- _upstream_with_retry ses_id "GET" url headers None None ;;
  body <- body_of_strict (out_content_type r) r ;;
  ret (mkProxyResponse (status_code r) (resp_headers r) body).

(** [GET /obs/find] *)
Definition obs_find (session_id : option string) (q fields order_by : string)
    (limit : option Z) : M ProxyResponse :=
  sid <- _get_session_id_or_latest session_id ;;
  ses <- fetch_session sid "No valid session. Login and try again." ;;
  let qparams :=
    [("Filter", UrlLib.QScalar (UrlLib.QStr ("Name LIKE '%" ++ q ++ "%'")));
     ("Fields", UrlLib.QScalar (UrlLib.QStr fields));
     ("OrderBy", UrlLib.QScalar (UrlLib.QStr order_by))] in
  let qparams := with_limit limit qparams in
  let url := _build_target_url "/obs" (Some qparams) in
  let headers := _default_headers ses None in
  r <- _upstream_with_retry sid "GET" url headers None None ;;
  ret (mkProxyResponse (status_code r) (resp_headers r) (_json_or_text r)).

(** The first half of [projects_by_obs]: the OBS id, or the reply to hand
    back at once.  Every failure inside its [try] ends in
    [HTTPException(status=502, ...)], a call with a keyword the class does
    not take, hence in a [TypeError]. *)
Definition resolve_obs_id (sid : string) (ses : Session)
    (obs_name obs_id : option string) : M (ProxyResponse + string) :=
  match provided_truthy obs_id with
  | Some oid => ret (inr oid)
  | None =>
      match provided_truthy obs_name with
      | None => raise_http 400 "Provide obs_name or obs_id"
      | Some name =>
          let obs_q :=
            [("Filter", UrlLib.QScalar (UrlLib.QStr ("Name='" ++ name ++ "'")));
             ("Fields", UrlLib.QScalar (UrlLib.QStr "Name,ObjectId"));
             ("MaxObjects", UrlLib.QScalar (UrlLib.QInt 1))] in
          let obs_url := _build_target_url "/obs" (Some obs_q) in
          let obs_headers := _default_headers ses None in
          obs_resp <- _upstream_with_retry sid "GET" obs_url obs_headers
                        None None ;;
          if status_code obs_resp >=? 400 then
            ret (inl (mkProxyResponse (status_code obs_resp)
                        (resp_headers obs_resp) (_json_or_text obs_resp)))
          else
            match first_object_id obs_resp with
            | Some oid => ret (inr oid)
            | None => raise_other
            end
      end
  end.

(** [GET /projects/by_obs].  [ses] is the object held by the session
    manager, so the second request sees what a re-login during the first
    one wrote into it: the session is read again. *)
Definition projects_by_obs (session_id obs_name obs_id : option string)
    (fields order_by : string) (limit : option Z) : M ProxyResponse :=
  sid <- _get_session_id_or_latest session_id ;;
  ses <- fetch_session sid "No valid session. Login and try again." ;;
  found <- resolve_obs_id sid ses obs_name obs_id ;;
  match found with
  | inl early => ret early
  | inr oid =>
      ses <- fetch_session sid "No valid session. Login and try again." ;;
      let qparams :=
        [("Fields", UrlLib.QScalar (UrlLib.QStr fields));
         ("OrderBy", UrlLib.QScalar (UrlLib.QStr order_by));
         ("Filter", UrlLib.QScalar (UrlLib.QStr ("OBSObjectId='" ++ oid ++ "'")))] in
      let qparams := with_limit limit qparams in
      let proj_url := _build_target_url "/project" (Some qparams) in
      let proj_headers := _default_headers ses None in
      proj_resp <- _upstream_with_retry sid "GET" proj_url proj_headers
                     None None ;;
      ret (mkProxyResponse (status_code proj_resp) (resp_headers proj_resp)
             (_json_or_text proj_resp))
  end.

(** [GET /session/active] *)
Definition session_active : M ActiveSession :=
  latest <- get_latest_session ;;
  match latest with
  | None => raise_http 404 "No active sessions"
  | Some (sid, ses) =>
      match strftime_utc (created_at ses) with
      | Some text =>
          ret (mkActiveSession sid text
                 (match creds ses with Some _ => true | None => false end)
                 (database_name ses))
      | None => raise_other
      end
  end.

(** [DELETE /session/{session_id}] *)
Definition delete_session (session_id : string) : M string :=
  present <- gets (fun w => mem session_id (sessions w)) ;;
  if present : bool then
    remove_session session_id ;;;
    ret ("Session " ++ session_id ++ " deleted")
  else raise_http 404 "Session not found".

(** [DELETE /sessions/clear] *)
Definition clear_all_sessions : M string :=
  clear_all ;;;
  ret "All sessions cleared".


(** * Properties *)

(** ** Dictionaries *)

Section DictFacts.
Context {V : Type}.
Implicit Types (d extra : pydict V) (k : string) (v : V).

Lemma get_set_same d k v : get k (set k v d) = Some v.
Proof.
  induction d as [|[k' v'] d IH]; simpl.
  - now rewrite String.eqb_refl.
  - destruct (String.eqb k' k) eqn:E; simpl; rewrite E; auto.
Qed.

Lemma get_set_other d k k' v : k' <> k -> get k (set k' v d) = get k d.
Proof.
  intros Hne. induction d as [|[k0 v0] d IH]; simpl.
  - destruct (String.eqb k' k) eqn:E; auto.
    apply String.eqb_eq in E. contradiction.
  - destruct (String.eqb k0 k') eqn:E0; simpl.
    + apply String.eqb_eq in E0. subst k0.
      destruct (String.eqb k' k) eqn:E; auto.
      apply String.eqb_eq in E. contradiction.
    + destruct (String.eqb k0 k); auto.
Qed.

Lemma get_del_other d k k' : k' <> k -> get k (del k' d) = get k d.
Proof.
  intros Hne. induction d as [|[k0 v0] d IH]; simpl; auto.
  destruct (String.eqb k0 k') eqn:E0; simpl.
  - apply String.eqb_eq in E0. subst k0.
    destruct (String.eqb k' k) eqn:E; auto.
    apply String.eqb_eq in E. contradiction.
  - destruct (String.eqb k0 k); auto.
Qed.

Lemma get_None_notin d k : get k d = None <-> ~ In k (keys d).
Proof.
  induction d as [|[k' v'] d IH]; simpl.
  - tauto.
  - destruct (String.eqb k' k) eqn:E.
    + apply String.eqb_eq in E. split; [discriminate | tauto].
    + apply String.eqb_neq in E. rewrite IH. tauto.
Qed.

Lemma keys_set d k v :
  keys (set k v d) = if mem k d then keys d else (keys d ++ [k])%list.
Proof.
  unfold mem. induction d as [|[k' v'] d IH]; simpl; auto.
  destruct (String.eqb k' k) eqn:E; simpl; auto.
  rewrite IH. destruct (get k d); auto.
Qed.

Lemma NoDup_keys_set d k v : NoDup (keys d) -> NoDup (keys (set k v d)).
Proof.
  intros Hd. rewrite keys_set. unfold mem.
  destruct (get k d) eqn:E; auto.
  apply get_None_notin in E.
  apply NoDup_rev in Hd. rewrite <- (rev_involutive (keys d ++ [k])%list).
  apply NoDup_rev. rewrite rev_app_distr. simpl. constructor; auto.
  now rewrite <- in_rev.
Qed.


Lemma get_update_notin d extra k :
  ~ In k (keys extra) -> get k (update d extra) = get k d.
Proof.
  unfold update. revert d.
  induction extra as [|[k' v'] extra IH]; simpl; intros d Hn; auto.
  rewrite IH by tauto. apply get_set_other. tauto.
Qed.

Lemma get_update_in d extra k v :
  NoDup (keys extra) -> get k extra = Some v -> get k (update d extra) = Some v.
Proof.
  unfold update. revert d.
  induction extra as [|[k' v'] extra IH]; simpl; intros d Hnd Hg; [discriminate|].
  inversion Hnd as [|? ? Hnotin Hnd']; subst.
  destruct (String.eqb k' k) eqn:E.
  - apply String.eqb_eq in E. subst k'. inversion Hg; subst v'.
    fold (update (set k v d) extra).
    rewrite get_update_notin by assumption. apply get_set_same.
  - now apply IH.
Qed.




Lemma mem_set_same d k v : mem k (set k v d) = true.
Proof. unfold mem. now rewrite get_set_same. Qed.

Lemma mem_set_other d k k' v : k' <> k -> mem k (set k' v d) = mem k d.
Proof. intros H. unfold mem. now rewrite get_set_other. Qed.

End DictFacts.

(** ** Strings and numbers *)

Lemma to_int_proper (z : Z) :
  Z.to_int z <> Decimal.Pos Decimal.Nil /\ Z.to_int z <> Decimal.Neg Decimal.Nil.
Proof.
  destruct z as [|p|p]; simpl; split; try discriminate;
    intros H; inversion H as [Hp];
    exact (DecimalPos.Unsigned.to_uint_nonnil _ Hp).
Qed.

Lemma str_of_int_inj (a b : Z) : PyStr.str_of_int a = PyStr.str_of_int b -> a = b.
Proof.
  unfold PyStr.str_of_int. intros H.
  assert (Hi : Z.to_int a = Z.to_int b).
  { apply (f_equal NilZero.int_of_string) in H.
    destruct (to_int_proper a), (to_int_proper b).
    rewrite !NilZero.isi in H by assumption. now inversion H. }
  apply (f_equal Z.of_int) in Hi. now rewrite !DecimalZ.of_to in Hi.
Qed.

Lemma skipn_length_app {A} (l evs : list A) : skipn (length l) (l ++ evs) = evs.
Proof. induction l; simpl; auto. Qed.

(** ** The relay engine *)

Ltac run_py :=
  unfold _upstream_with_retry, _try_login, get_session, send, catch_http,
    bind, ret, gets, modify, raise_http, raise_other; simpl.

(** Case analysis on an innermost scrutinee of the goal. *)
Ltac break_match :=
  repeat match goal with
    | |- context [match ?x with _ => _ end] =>
        lazymatch x with
        | context [match _ with _ => _ end] => fail
        | _ => destruct x eqn:?; simpl
        end
    end.

Lemma events_since_app (w w' : World) (evs : list event) :
  trace w' = (trace w ++ evs)%list -> events_since w w' = evs.
Proof. unfold events_since. intros ->. apply skipn_length_app. Qed.

Lemma events_since_refl (w : World) : events_since w w = [].
Proof. apply events_since_app. now rewrite app_nil_r. Qed.

(** Replaces [events_since w w'] by the list [w'] adds to the history of
    [w], when [w'] is [w] with events logged. *)
Ltac settle_events w :=
  try rewrite !events_since_refl;
  repeat match goal with
    | |- context [events_since w ?w'] =>
        let H := fresh "Hev" in
        eassert (H : events_since w w' = _)
          by (apply events_since_app; simpl;
              rewrite <- ?app_assoc; reflexivity);
        rewrite !H; clear H
    end.

(** Whatever the inputs, a relay call only adds outbound calls to the
    history, at most two requests and at most one login among them. *)
Lemma relay_events_bound ses_id method url headers data jb w :
  let w' := snd (_upstream_with_retry ses_id method url headers data jb w) in
  let evs := events_since w w' in
  trace w' = (trace w ++ evs)%list /\
  (count_requests evs <= 2)%nat /\ (count_logins evs <= 1)%nat.
Proof.
  run_py. break_match; settle_events w;
    unfold count_requests, count_logins, login_event; simpl;
    rewrite ?app_nil_r, <- ?app_assoc; repeat split; auto.
Qed.

Section AfterRejection.

(** A relay call that reaches the upstream and is turned away: the session
    exists, the host is the allowed one, and the first reply is a 401. *)
Variables (ses_id method url : string) (headers : pydict string).
Variables (data jb : option pyany) (w : World) (ses : Session) (r1 : Response).

Let e1 : event := EvRequest method url headers data jb.

Hypothesis Hses : get ses_id (sessions w) = Some ses.
Hypothesis Hhost : host_of url = ALLOWED_HOST.
Hypothesis Hfirst : upstream (trace w) e1 = Some r1.
Hypothesis H401 : status_code r1 = 401.

(** The run of the call, step by step. *)
Lemma relay_after_401 :
  _upstream_with_retry ses_id method url headers data jb w =
  match creds ses with
  | None => (Ok r1, log_event e1 w)
  | Some c =>
      let w1 := log_event e1 w in
      let el := login_event (username c) (password c) (creds_database_name c) in
      let w2 := log_event el w1 in
      match upstream (trace w1) el with
      | None => (OtherException, w2)
      | Some lr =>
          if status_code lr >=? 400 then (Ok r1, w2)
          else
            let ses' :=
              with_credentials ses (_extract_cookies lr) (token_of lr) in
            let w3 := set_sessions (set ses_id ses' (sessions w2)) w2 in
            let e2 := EvRequest method url (retry_headers ses' headers) data jb in
            match upstream (trace w3) e2 with
            | Some r2 => (Ok r2, log_event e2 w3)
            | None => (OtherException, log_event e2 w3)
            end
      end
  end.
Proof.
  run_py. rewrite Hses, Hhost, String.eqb_refl. simpl.
  fold e1. rewrite Hfirst. simpl. rewrite H401. simpl.
  break_match; reflexivity.
Qed.

End AfterRejection.

(** C1 (amended).  No relay call makes more than two upstream requests or
    more than one re-authentication attempt.  When the first attempt is
    answered 401: without remembered credentials that request is the only
    outbound call and its reply is returned; with remembered credentials
    there is exactly one re-authentication attempt, and if it succeeds
    (a reply with status below 400) there are exactly two upstream requests
    and the outcome of the second is returned whatever its status, while if
    it is refused or fails there is only the one upstream request. *)
Theorem relay_retry_bound ses_id method url headers data jb w :
  let e1 := EvRequest method url headers data jb in
  let out := _upstream_with_retry ses_id method url headers data jb w in
  let evs := events_since w (snd out) in
  ((count_requests evs <= 2)%nat /\ (count_logins evs <= 1)%nat) /\
  forall ses r1,
    get ses_id (sessions w) = Some ses ->
    host_of url = ALLOWED_HOST ->
    upstream (trace w) e1 = Some r1 ->
    status_code r1 = 401 ->
    match creds ses with
    | None => evs = [e1] /\ fst out = Ok r1
    | Some c =>
        let el :=
          login_event (username c) (password c) (creds_database_name c) in
        count_logins evs = 1%nat /\
        match upstream (trace w ++ [e1]) el with
        | None => evs = [e1; el] /\ fst out = OtherException
        | Some lr =>
            if status_code lr >=? 400 then evs = [e1; el] /\ fst out = Ok r1
            else
              let e2 :=
                EvRequest method url
                  (retry_headers
                     (with_credentials ses (_extract_cookies lr) (token_of lr))
                     headers)
                  data jb in
              evs = [e1; el; e2] /\ count_requests evs = 2%nat /\
              forall r2,
                upstream (trace w ++ [e1; el]) e2 = Some r2 -> fst out = Ok r2
        end
    end.
Proof.
  intros e1 out evs. split.
  - apply (relay_events_bound ses_id method url headers data jb w).
  - intros ses r1 Hses Hhost Hfirst H401. subst evs out.
    rewrite (relay_after_401 _ _ _ _ _ _ _ _ _ Hses Hhost Hfirst H401).
    fold e1. simpl.
    destruct (creds ses) as [c|]; simpl.
    + destruct (upstream (trace w ++ [e1])
                  (login_event (username c) (password c)
                     (creds_database_name c))) as [lr|] eqn:El; simpl.
      * destruct (status_code lr >=? 400) eqn:Es; simpl.
        -- settle_events w. unfold count_logins, login_event. simpl. auto.
        -- rewrite <- app_assoc. simpl.
           match goal with
           | |- context [upstream (trace w ++ [e1; ?el]) ?e2] =>
               destruct (upstream (trace w ++ [e1; el]) e2) as [r2|] eqn:E2
           end; simpl; settle_events w;
             unfold count_logins, count_requests, login_event, e1; simpl;
             repeat split; auto; intros r2' Hr2; congruence.
      * settle_events w. unfold count_logins, login_event. simpl. auto.
    + settle_events w. auto.
Qed.

(** C7.  When the first attempt is answered 401, the session remembers
    credentials and the login made with them is refused (a reply with
    status 400 or above), the relay returns the first reply itself and the
    store is as it was: the session's cookie and token are untouched. *)
Theorem relay_keeps_session_on_failed_relogin
    ses_id method url headers data jb w ses r1 c lr :
  get ses_id (sessions w) = Some ses ->
  host_of url = ALLOWED_HOST ->
  upstream (trace w) (EvRequest method url headers data jb) = Some r1 ->
  status_code r1 = 401 ->
  creds ses = Some c ->
  upstream (trace w ++ [EvRequest method url headers data jb])
    (login_event (username c) (password c) (creds_database_name c)) = Some lr ->
  400 <= status_code lr ->
  let out := _upstream_with_retry ses_id method url headers data jb w in
  fst out = Ok r1 /\
  sessions (snd out) = sessions w /\
  get ses_id (sessions (snd out)) = Some ses /\
  disk (snd out) = disk w /\
  count_requests (events_since w (snd out)) = 1%nat.
Proof.
  intros Hses Hhost Hfirst H401 Hc Hl Hs out. subst out.
  rewrite (relay_after_401 _ _ _ _ _ _ _ _ _ Hses Hhost Hfirst H401).
  rewrite Hc. simpl. rewrite Hl.
  assert (Hge : (status_code lr >=? 400) = true) by (apply Z.geb_le; lia).
  rewrite Hge. simpl. settle_events w.
  unfold count_requests, login_event. simpl. auto.
Qed.

(** ** The host allowlist *)

(** The resolver reads the store and nothing else: it returns an
    identifier or raises a 401, and leaves the world as it found it. *)
Lemma resolve_cases p w :
  (exists s, _get_session_id_or_latest p w = (Ok s, w)) \/
  (exists d, _get_session_id_or_latest p w = (HTTPException 401 d, w)).
Proof.
  unfold _get_session_id_or_latest, get_latest_session_id, bind, gets, ret,
    raise_http.
  break_match; eauto.
Qed.


(** A URL whose host is not the allowed one stops the relay before any
    outbound call. *)
Lemma relay_rejects_other_host ses_id method url headers data jb w ses :
  get ses_id (sessions w) = Some ses ->
  host_of url <> ALLOWED_HOST ->
  _upstream_with_retry ses_id method url headers data jb w =
  (HTTPException 400 ("Host not allowed: " ++ host_of url), w).
Proof.
  intros Hses Hhost. run_py. rewrite Hses.
  apply String.eqb_neq in Hhost. now rewrite Hhost.
Qed.

Lemma relay_unknown_session ses_id method url headers data jb w :
  get ses_id (sessions w) = None ->
  _upstream_with_retry ses_id method url headers data jb w =
  (HTTPException 401 "Invalid or expired session_id. Please login again.", w).
Proof. intros Hses. run_py. now rewrite Hses. Qed.

(** [POST /call], step by step. *)
Lemma call_run (req : CallRequest) (w : World) :
  call req w =
  match _get_session_id_or_latest (cr_session_id req) w with
  | (Ok sid, w1) =>
      match get sid (sessions w1) with
      | None =>
          (HTTPException 401
             "Invalid or expired session_id. Please login again.", w1)
      | Some ses =>
          let db := classify_body (cr_body req) in
          match
            _upstream_with_retry sid (cr_method req)
              (_build_target_url (cr_path req) (cr_query req))
              (_default_headers ses
                 (Some (match cr_headers req with Some h => h | None => [] end)))
              (fst db) (snd db) w1
          with
          | (Ok r, w2) =>
              (Ok (mkProxyResponse (status_code r) (resp_headers r)
                     (body_of (out_content_type r) r)), w2)
          | (HTTPException s d, w2) => (HTTPException s d, w2)
          | (OtherException, w2) => (OtherException, w2)
          end
      end
  | (HTTPException s d, w1) => (HTTPException s d, w1)
  | (OtherException, w1) => (OtherException, w1)
  end.
Proof.
  unfold call, fetch_session, get_session, bind, gets, ret, raise_http.
  destruct (_get_session_id_or_latest (cr_session_id req) w) as [[sid| |] w1];
    try reflexivity.
  destruct (get sid (sessions w1)); reflexivity.
Qed.


(** ** Request headers *)

Lemma get_update {V} (d extra : pydict V) k :
  NoDup (keys extra) ->
  get k (update d extra) =
  match get k extra with Some v => Some v | None => get k d end.
Proof.
  intros Hnd. destruct (get k extra) as [v|] eqn:E.
  - now apply get_update_in.
  - apply get_update_notin. now apply get_None_notin.
Qed.

Lemma default_headers_update ses extra :
  _default_headers ses (Some extra) = update (base_headers ses) extra.
Proof. unfold _default_headers. now destruct extra. Qed.




Lemma base_headers_fixed ses :
  get "Accept" (base_headers ses) = Some P6_ACCEPT /\
  get "Cookie" (base_headers ses) = Some (cookies ses) /\
  get "Version" (base_headers ses) =
    (if PyStr.truthy P6_VERSION then Some P6_VERSION else None) /\
  get "AuthToken" (base_headers ses) =
    (if py_truthy (auth_token ses)
     then Some (py_text (auth_token ses)) else None).
Proof.
  unfold base_headers.
  destruct (PyStr.truthy P6_VERSION);
    destruct (py_truthy (auth_token ses));
    simpl; auto.
Qed.



(** ** Re-login and the stored session *)






(** ** Persistence *)

(** The store's own operations write the snapshot after they change the
    dictionary. *)
Lemma add_session_persists sid ses w :
  disk_writable w = true ->
  let w' := snd (add_session sid ses w) in
  sessions w' = set sid ses (sessions w) /\ disk w' = Some (sessions w').
Proof.
  intros Hw. unfold add_session, _save_to_disk, bind, modify. simpl.
  rewrite Hw. simpl. auto.
Qed.

Lemma remove_session_persists sid w :
  disk_writable w = true ->
  mem sid (sessions w) = true ->
  let w' := snd (remove_session sid w) in
  sessions w' = del sid (sessions w) /\ disk w' = Some (sessions w').
Proof.
  intros Hw Hm. unfold remove_session, _save_to_disk, bind, modify, gets.
  simpl. rewrite Hm. simpl. rewrite Hw. simpl. auto.
Qed.

Lemma clear_all_persists w :
  disk_writable w = true ->
  let w' := snd (clear_all w) in
  sessions w' = [] /\ disk w' = Some (sessions w').
Proof.
  intros Hw. unfold clear_all, _save_to_disk, bind, modify. simpl.
  rewrite Hw. simpl. auto.
Qed.

(** The relay never writes the snapshot. *)
Lemma relay_leaves_disk ses_id method url headers data jb w :
  disk (snd (_upstream_with_retry ses_id method url headers data jb w)) = disk w.
Proof. run_py. break_match; reflexivity. Qed.

(** ** The latest session *)

Section MaxBy.
Context {A : Type} (key : A -> Q).

(** [max] keeps the first of the greatest items: what stands before the
    item it returns is strictly smaller, what stands after is not greater. *)
Lemma fold_max_split (rest : list A) :
  forall (before : list A) (best : A) (after : list A),
    (forall x, In x before -> (key x < key best)%Q) ->
    (forall x, In x after -> (key x <= key best)%Q) ->
    exists before' after',
      (before ++ best :: after ++ rest =
       before' ++ fold_left (max_step key) rest best :: after')%list /\
      (forall x, In x before' ->
         (key x < key (fold_left (max_step key) rest best))%Q) /\
      (forall x, In x after' ->
         (key x <= key (fold_left (max_step key) rest best))%Q).
Proof.
  induction rest as [|x rest IH]; intros before best after Hb Ha; simpl.
  - exists before, after. rewrite app_nil_r. auto.
  - unfold max_step at 2 4 6. destruct (Qle_bool (key x) (key best)) eqn:E.
    + apply Qle_bool_iff in E.
      destruct (IH before best (after ++ [x])%list) as [b' [a' [Heq [Hb' Ha']]]];
        auto.
      { intros y Hy. apply in_app_or in Hy. destruct Hy as [Hy|[Hy|[]]]; auto.
        now subst y. }
      exists b', a'. rewrite <- Heq. rewrite <- !app_assoc. simpl. auto.
    + assert (Hlt : (key best < key x)%Q).
      { apply Qnot_le_lt. intros Hle. apply Qle_bool_iff in Hle. congruence. }
      destruct (IH (before ++ best :: after)%list x []) as [b' [a' [Heq [Hb' Ha']]]].
      { intros y Hy. apply in_app_or in Hy. destruct Hy as [Hy|[Hy|Hy]].
        - eapply Qlt_trans; eauto.
        - now subst y.
        - eapply Qle_lt_trans; eauto. }
      { intros y []. }
      exists b', a'. rewrite <- Heq. rewrite <- !app_assoc. simpl. auto.
Qed.

End MaxBy.

Lemma py_max_by_split {A} (key : A -> Q) (first : A) (rest : list A) :
  exists before after,
    (first :: rest = before ++ py_max_by key first rest :: after)%list /\
    (forall x, In x before -> (key x < key (py_max_by key first rest))%Q) /\
    (forall x, In x after -> (key x <= key (py_max_by key first rest))%Q).
Proof.
  destruct (fold_max_split key rest [] first []) as [b [a H]];
    try (intros x []).
  exists b, a. exact H.
Qed.

(** The identifier [latest_of] returns names a session of the store. *)
Lemma latest_of_stored d sid :
  latest_of d = Some sid -> exists ses, get sid d = Some ses.
Proof.
  destruct d as [|kv rest]; simpl; [discriminate|].
  intros H. inversion H as [Hsid]. clear H.
  destruct (py_max_by_split (fun kv => created_at (snd kv)) kv rest)
    as [before [after [Heq _]]].
  set (m := py_max_by (fun kv => created_at (snd kv)) kv rest) in *.
  assert (Hin : In (fst m) (keys (kv :: rest))).
  { rewrite Heq. unfold keys. rewrite map_app. apply in_or_app. right.
    simpl. auto. }
  destruct (get (fst m) (kv :: rest)) as [ses|] eqn:Eg; eauto.
  apply get_None_notin in Eg. contradiction.
Qed.

(** C4 (amended).  On an empty store [get_latest_session_id] returns none.
    On a non-empty store it returns the identifier of a session with the
    greatest creation timestamp, and among several with that timestamp the
    one that comes first in the store's insertion order: every session
    before it is strictly older, every session after it is not newer.  The
    store is not changed. *)
Theorem latest_session_is_first_maximum (w : World) :
  snd (get_latest_session_id w) = w /\
  match fst (get_latest_session_id w) with
  | Ok None => sessions w = []
  | Ok (Some sid) =>
      exists before ses after,
        (sessions w = before ++ (sid, ses) :: after)%list /\
        (forall kv, In kv before -> (created_at (snd kv) < created_at ses)%Q) /\
        (forall kv, In kv after -> (created_at (snd kv) <= created_at ses)%Q)
  | _ => False
  end.
Proof.
  unfold get_latest_session_id, gets. simpl. split; auto.
  unfold latest_of. destruct (sessions w) as [|kv rest]; auto.
  destruct (py_max_by_split (fun kv => created_at (snd kv)) kv rest)
    as [before [after [Heq [Hb Ha]]]].
  set (m := py_max_by (fun kv => created_at (snd kv)) kv rest) in *.
  exists before, (snd m), after. rewrite <- surjective_pairing. auto.
Qed.

(** ** Session resolution *)

Lemma provided_truthy_some p s :
  provided_truthy p = Some s <-> p = Some s /\ s <> "".
Proof.
  unfold provided_truthy. destruct p as [[|a t]|]; simpl; split;
    try discriminate; try (intros [H _]; discriminate).
  - intros [H Hne]. inversion H; subst. contradiction.
  - intros H. inversion H; subst. split; auto. discriminate.
  - intros [H _]. assumption.
Qed.

Lemma provided_truthy_none p :
  provided_truthy p = None <-> p = None \/ p = Some "".
Proof.
  unfold provided_truthy. destruct p as [[|a t]|]; simpl; split; auto;
    try discriminate; intros [H|H]; discriminate.
Qed.

(** [GET /session/active] reports the store's latest session, when its
    identifier is not the empty string and its creation time can be
    formatted. *)
Lemma session_active_run w :
  session_active w =
  match provided_truthy (latest_of (sessions w)) with
  | None => (HTTPException 404 "No active sessions", w)
  | Some sid =>
      match get sid (sessions w) with
      | Some ses =>
          match strftime_utc (created_at ses) with
          | Some text =>
              (Ok (mkActiveSession sid text
                     (match creds ses with Some _ => true | None => false end)
                     (database_name ses)), w)
          | None => (OtherException, w)
          end
      | None => (OtherException, w)
      end
  end.
Proof.
  unfold session_active, get_latest_session, get_latest_session_id, bind,
    gets, ret, raise_http, raise_other, provided_truthy.
  simpl. destruct (latest_of (sessions w)) as [sid|]; auto.
  destruct (PyStr.truthy sid); auto.
  destruct (get sid (sessions w)) as [ses|]; auto.
  destruct (strftime_utc (created_at ses)); auto.
Qed.

Lemma resolve_explicit s w :
  s <> "" -> _get_session_id_or_latest (Some s) w = (Ok s, w).
Proof.
  intros Hs. unfold _get_session_id_or_latest.
  assert (H : provided_truthy (Some s) = Some s)
    by (apply provided_truthy_some; auto).
  now rewrite H.
Qed.

Lemma resolve_auto_off p w :
  provided_truthy p = None -> AUTO_SESSION_ENABLED = false ->
  _get_session_id_or_latest p w =
  (HTTPException 401 "session_id required (AUTO_SESSION_ENABLED is disabled)", w).
Proof.
  intros Hp Hoff. unfold _get_session_id_or_latest. now rewrite Hp, Hoff.
Qed.

Lemma resolve_auto_on p w :
  provided_truthy p = None -> AUTO_SESSION_ENABLED = true ->
  _get_session_id_or_latest p w =
  match provided_truthy (latest_of (sessions w)) with
  | Some s => (Ok s, w)
  | None =>
      (HTTPException 401
         (if AUTO_SESSION_STRICT_MODE
          then "No active session found. Please login first via /login"
          else "No sessions available"), w)
  end.
Proof.
  intros Hp Hon.
  unfold _get_session_id_or_latest, get_latest_session_id, bind, gets, ret,
    raise_http.
  rewrite Hp, Hon. simpl.
  destruct (provided_truthy (latest_of (sessions w))); auto.
  now destruct AUTO_SESSION_STRICT_MODE.
Qed.

(** An identifier the resolver returns is not empty, and supplied
    explicitly it is returned again. *)
Lemma resolve_ok p w sid w1 :
  _get_session_id_or_latest p w = (Ok sid, w1) ->
  w1 = w /\ sid <> "" /\ _get_session_id_or_latest (Some sid) w = (Ok sid, w).
Proof.
  intros H.
  assert (Hs : w1 = w /\ sid <> "").
  { revert H.
    unfold _get_session_id_or_latest, get_latest_session_id, bind, gets, ret,
      raise_http.
    destruct (provided_truthy p) as [s|] eqn:Ep.
    - intros H. inversion H; subst.
      apply provided_truthy_some in Ep. tauto.
    - destruct (negb AUTO_SESSION_ENABLED); [discriminate|].
      destruct (provided_truthy (latest_of (sessions w))) as [s|] eqn:El.
      + intros H. inversion H; subst.
        apply provided_truthy_some in El. tauto.
      + destruct AUTO_SESSION_STRICT_MODE; discriminate. }
  destruct Hs as [-> Hne]. repeat split; auto. now apply resolve_explicit.
Qed.

(** ** Running an endpoint step by step *)

Lemma bind_ok {A B} (m : M A) (f : A -> M B) w a w1 :
  m w = (Ok a, w1) -> bind m f w = f a w1.
Proof. unfold bind. now intros ->. Qed.

Lemma fetch_session_found sid detail w ses :
  get sid (sessions w) = Some ses -> fetch_session sid detail w = (Ok ses, w).
Proof.
  intros H. unfold fetch_session, get_session, bind, gets, ret. simpl.
  now rewrite H.
Qed.

Ltac step_with H := erewrite bind_ok by (exact H).
Ltac step_fetch H := erewrite bind_ok by (apply fetch_session_found; exact H).

Lemma bind_unfold {A B} (m : M A) (f : A -> M B) w :
  bind m f w =
  match m w with
  | (Ok a, w1) => f a w1
  | (HTTPException s d, w1) => (HTTPException s d, w1)
  | (OtherException, w1) => (OtherException, w1)
  end.
Proof. reflexivity. Qed.

(** A step that leaves the world alone does not show in the final
    state. *)
Lemma snd_bind_pure {A B} (m : M A) (f : A -> M B) w :
  (forall a w1, snd (f a w1) = w1) -> snd (bind m f w) = snd (m w).
Proof.
  intros Hf. unfold bind. destruct (m w) as [[a| |] w1]; simpl; auto.
Qed.

Definition same_but_credentials (a b : Session) : Prop :=
  created_at b = created_at a /\
  database_name b = database_name a /\
  creds b = creds a.

(** What a relay call leaves as it was. *)
Lemma relay_frame ses_id method url headers data jb w :
  let w' := snd (_upstream_with_retry ses_id method url headers data jb w) in
  keys (sessions w') = keys (sessions w) /\
  (forall k, k <> ses_id -> get k (sessions w') = get k (sessions w)) /\
  (forall ses, get ses_id (sessions w) = Some ses ->
     exists ses', get ses_id (sessions w') = Some ses' /\
                  same_but_credentials ses ses') /\
  disk w' = disk w /\ clock_reads w' = clock_reads w.
Proof.
  unfold same_but_credentials. run_py. break_match;
    repeat match goal with
      | |- _ /\ _ => split
      end; auto;
    try (intros ses0 Hs0; exists ses0; split; [congruence | auto]);
    try (rewrite keys_set; unfold mem;
         match goal with H : get ses_id _ = Some _ |- _ => now rewrite H end);
    try (intros k Hk; now apply get_set_other; auto);
    try (intros ses0 Hs0; eexists; split; [apply get_set_same|];
         assert (ses0 = s) by congruence; subst; simpl; auto).
Qed.

(** The outbound calls of a relay call are added to the history.  If there
    is none the world is as it was; otherwise the first of them is the
    request the relay was given. *)
Lemma relay_head ses_id method url headers data jb w :
  let w' := snd (_upstream_with_retry ses_id method url headers data jb w) in
  trace w' = (trace w ++ events_since w w')%list /\
  match events_since w w' with
  | [] => w' = w
  | e :: _ => e = EvRequest method url headers data jb
  end.
Proof.
  cbv zeta.
  set (w' := snd (_upstream_with_retry ses_id method url headers data jb w)).
  assert (H : exists evs,
             events_since w w' = evs /\
             trace w' = (trace w ++ evs)%list /\
             match evs with
             | [] => w' = w
             | e :: _ => e = EvRequest method url headers data jb
             end).
  { subst w'. run_py.
    break_match; settle_events w; eexists; (split; [reflexivity|]); simpl;
      rewrite ?app_nil_r, <- ?app_assoc; auto. }
  destruct H as [evs [-> H]]. exact H.
Qed.

(** A relay call that returns a reply has sent the request. *)
Lemma relay_ok_sent ses_id method url headers data jb w r w' :
  _upstream_with_retry ses_id method url headers data jb w = (Ok r, w') ->
  events_since w w' <> [].
Proof.
  run_py. break_match; intros H; inversion H; subst; settle_events w;
    discriminate.
Qed.

Lemma events_since_trans w w1 w2 :
  trace w1 = (trace w ++ events_since w w1)%list ->
  trace w2 = (trace w1 ++ events_since w1 w2)%list ->
  trace w2 = (trace w ++ events_since w w2)%list /\
  events_since w w2 = (events_since w w1 ++ events_since w1 w2)%list.
Proof.
  intros H1 H2.
  assert (H : events_since w w2 =
              (events_since w w1 ++ events_since w1 w2)%list).
  { apply events_since_app. rewrite H2, H1 at 1. now rewrite app_assoc. }
  split; auto. rewrite H, app_assoc, <- H1. exact H2.
Qed.

(** ** Session resolution at the endpoints *)

(** An endpoint applies the resolver first.  When the resolver raises, the
    endpoint raises the same and nothing else has happened.  When it
    returns an identifier, the endpoint goes on as it does for a caller
    that supplies that identifier; if the store holds no session under it,
    the endpoint raises a 401. *)
Definition resolves_first {A} (endpoint : option string -> M A) : Prop :=
  forall p w,
    match _get_session_id_or_latest p w with
    | (Ok sid, w1) =>
        endpoint p w = endpoint (Some sid) w1 /\
        (get sid (sessions w1) = None ->
         exists d, endpoint p w = (HTTPException 401 d, w1))
    | (HTTPException s d, w1) => endpoint p w = (HTTPException s d, w1)
    | (OtherException, w1) => endpoint p w = (OtherException, w1)
    end.

(** An endpoint serves a call from the session named by the identifier:
    its first outbound call, if it makes any, is a request with the
    headers built from that session (with [extra] on top), and the
    sessions under other identifiers are left as they were. *)
Definition serves_session {A} (endpoint : option string -> M A)
    (extra : option (pydict string)) : Prop :=
  forall sid ses w,
    sid <> "" ->
    get sid (sessions w) = Some ses ->
    let w' := snd (endpoint (Some sid) w) in
    (forall k, k <> sid -> get k (sessions w') = get k (sessions w)) /\
    match events_since w w' with
    | [] => True
    | e :: _ =>
        exists method url data jb,
          e = EvRequest method url (_default_headers ses extra) data jb
    end.

(** An endpoint that starts with the resolver and the look-up of the
    session, and goes on with [serve]. *)
Lemma resolves_first_intro {A} (endpoint : option string -> M A)
    (detail : string) (serve : string -> Session -> M A) :
  (forall p,
     endpoint p =
     (sid <- _get_session_id_or_latest p ;;
      ses <- fetch_session sid detail ;;
      serve sid ses)) ->
  resolves_first endpoint.
Proof.
  intros Hdef p w. rewrite !Hdef.
  destruct (_get_session_id_or_latest p w) as [[sid| |] w1] eqn:Hr;
    try (unfold bind; now rewrite Hr).
  destruct (resolve_ok _ _ _ _ Hr) as [-> [Hne Hagain]].
  split.
  - rewrite Hdef, (bind_ok _ _ _ _ _ Hr), (bind_ok _ _ _ _ _ Hagain).
    reflexivity.
  - intros Hnone. step_with Hr.
    unfold fetch_session, get_session, bind, gets, raise_http. simpl.
    rewrite Hnone. eauto.
Qed.

(** An endpoint that, after the resolver and the look-up, makes one relay
    call under the resolved identifier and does nothing else to the
    world. *)
Lemma serves_session_intro {A} (endpoint : option string -> M A)
    (detail : string) (extra : option (pydict string))
    (method url : string) (data jb : option pyany)
    (finish : Response -> M A) :
  (forall p,
     endpoint p =
     (sid <- _get_session_id_or_latest p ;;
      ses <- fetch_session sid detail ;;
      r <- _upstream_with_retry sid method url (_default_headers ses extra)
             data jb ;;
      finish r)) ->
  (forall r w, snd (finish r w) = w) ->
  serves_session endpoint extra.
Proof.
  intros Hdef Hpure sid ses w Hne Hses. rewrite Hdef.
  step_with (resolve_explicit sid w Hne). step_fetch Hses.
  rewrite snd_bind_pure by exact Hpure.
  pose proof (relay_frame sid method url (_default_headers ses extra)
                data jb w) as [_ [Hother _]].
  pose proof (relay_head sid method url (_default_headers ses extra)
                data jb w) as [_ Hhead].
  cbv zeta in *. split; [exact Hother|].
  destruct (events_since w _) as [|e rest]; [exact I|].
  subst e. eauto.
Qed.

Lemma call_resolves_first method path query hdrs body :
  resolves_first (fun p => call (mkCallRequest p method path query hdrs body)).
Proof.
  eapply resolves_first_intro. intros p. unfold call.
  cbn [cr_session_id cr_method cr_path cr_query cr_headers cr_body].
  reflexivity.
Qed.

Lemma obs_by_name_resolves_first name fields order_by :
  resolves_first (fun p => obs_by_name p name fields order_by).
Proof. eapply resolves_first_intro. intros p. reflexivity. Qed.

Lemma projects_list_resolves_first filter_ fields order_by limit :
  resolves_first (fun p => projects_list p filter_ fields order_by limit).
Proof. eapply resolves_first_intro. intros p. reflexivity. Qed.

Lemma obs_find_resolves_first q fields order_by limit :
  resolves_first (fun p => obs_find p q fields order_by limit).
Proof. eapply resolves_first_intro. intros p. reflexivity. Qed.

Lemma projects_by_obs_resolves_first obs_name obs_id fields order_by limit :
  resolves_first
    (fun p => projects_by_obs p obs_name obs_id fields order_by limit).
Proof. eapply resolves_first_intro. intros p. reflexivity. Qed.

Lemma body_of_strict_pure ctype r w :
  snd (body_of_strict ctype r w) = w.
Proof.
  unfold body_of_strict, ret, raise_other. break_match; reflexivity.
Qed.

Lemma call_serves_session method path query hdrs body :
  serves_session
    (fun p => call (mkCallRequest p method path query hdrs body))
    (Some (match hdrs with Some h => h | None => [] end)).
Proof.
  eapply serves_session_intro.
  - intros p. unfold call.
    cbn [cr_session_id cr_method cr_path cr_query cr_headers cr_body].
    cbv zeta. reflexivity.
  - reflexivity.
Qed.

Lemma obs_by_name_serves_session name fields order_by :
  serves_session (fun p => obs_by_name p name fields order_by) None.
Proof.
  eapply serves_session_intro.
  - intros p. reflexivity.
  - intros r w. cbv beta. rewrite snd_bind_pure by reflexivity.
    apply body_of_strict_pure.
Qed.

Lemma projects_list_serves_session filter_ fields order_by limit :
  serves_session
    (fun p => projects_list p filter_ fields order_by limit) None.
Proof.
  eapply serves_session_intro.
  - intros p. reflexivity.
  - intros r w. cbv beta. rewrite snd_bind_pure by reflexivity.
    apply body_of_strict_pure.
Qed.

Lemma obs_find_serves_session q fields order_by limit :
  serves_session (fun p => obs_find p q fields order_by limit) None.
Proof.
  eapply serves_session_intro.
  - intros p. reflexivity.
  - reflexivity.
Qed.

(** The look-up of the OBS identifier: one relay call under the session's
    identifier, or none. *)
Lemma resolve_obs_id_frame sid ses obs_name obs_id w :
  let out := resolve_obs_id sid ses obs_name obs_id w in
  (forall k, k <> sid -> get k (sessions (snd out)) = get k (sessions w)) /\
  keys (sessions (snd out)) = keys (sessions w) /\
  trace (snd out) = (trace w ++ events_since w (snd out))%list /\
  match events_since w (snd out) with
  | [] => snd out = w
  | e :: _ =>
      exists url,
        e = EvRequest "GET" url (_default_headers ses None) None None
  end.
Proof.
  unfold resolve_obs_id.
  destruct (provided_truthy obs_id) as [oid|].
  { unfold ret. simpl. rewrite events_since_refl, app_nil_r. auto. }
  destruct (provided_truthy obs_name) as [name|].
  2:{ unfold raise_http. simpl. rewrite events_since_refl, app_nil_r. auto. }
  cbv zeta.
  match goal with
  | |- context [_upstream_with_retry ?a ?b ?c ?d ?e ?f] =>
      pose proof (relay_frame a b c d e f w) as [Hkeys [Hother _]];
      pose proof (relay_head a b c d e f w) as [Htrace Hhead]
  end.
  cbv zeta in *.
  rewrite snd_bind_pure.
  2:{ intros r w1. unfold ret, raise_other. break_match; reflexivity. }
  repeat split; auto.
  destruct (events_since w _) as [|e rest]; [exact Hhead|]. eauto.
Qed.

Lemma projects_by_obs_serves_session obs_name obs_id fields order_by limit :
  serves_session
    (fun p => projects_by_obs p obs_name obs_id fields order_by limit) None.
Proof.
  intros sid ses w Hne Hses. unfold projects_by_obs.
  step_with (resolve_explicit sid w Hne). step_fetch Hses.
  pose proof (resolve_obs_id_frame sid ses obs_name obs_id w)
    as [Hother1 [Hkeys1 [Htrace1 Hhead1]]].
  cbv zeta in *.
  rewrite bind_unfold.
  destruct (resolve_obs_id sid ses obs_name obs_id w) as [[[early|oid]| |] w1];
    cbn [fst snd ret] in *; try (split; [exact Hother1|];
      destruct (events_since w w1) as [|e rest]; [exact I|];
      destruct Hhead1 as [url ->]; eauto).
  assert (Hstill : exists ses1, get sid (sessions w1) = Some ses1).
  { destruct (get sid (sessions w1)) as [ses1|] eqn:E; eauto.
    apply get_None_notin in E. rewrite Hkeys1 in E.
    apply get_None_notin in E. congruence. }
  destruct Hstill as [ses1 Hses1].
  step_fetch Hses1. cbv zeta.
  rewrite snd_bind_pure by reflexivity.
  match goal with
  | |- context [_upstream_with_retry ?a ?b ?c ?d ?e ?f w1] =>
      pose proof (relay_frame a b c d e f w1) as [_ [Hother2 _]];
      pose proof (relay_head a b c d e f w1) as [Htrace2 Hhead2];
      set (w2 := snd (_upstream_with_retry a b c d e f w1)) in *
  end.
  cbv zeta in *.
  destruct (events_since_trans w w1 w2 Htrace1 Htrace2) as [_ Hall].
  split.
  - intros k Hk. rewrite Hother2 by assumption. now apply Hother1.
  - rewrite Hall.
    destruct (events_since w w1) as [|e rest].
    + subst w1. assert (ses1 = ses) by congruence. subst ses1. simpl.
      destruct (events_since w w2) as [|e rest]; [exact I|].
      subst e. eauto.
    + simpl. destruct Hhead1 as [url ->]. eauto.
Qed.

(** C6 (amended).  Every endpoint that takes an optional session
    identifier resolves it first and in the same way.  A supplied
    identifier that is not the empty string is returned unchecked, and an
    endpoint given one the store does not hold raises a 401 at its own
    look-up.  With no identifier, or the empty string, and auto-selection
    off, resolution raises a 401 "session_id required" and nothing is sent
    upstream.  With auto-selection on it returns the identifier of the
    store's latest session: the one [GET /session/active] reports when it
    answers; where that endpoint answers 404 resolution raises a 401, as
    it does on an empty store, and where that endpoint fails because the
    creation time of the latest session cannot be formatted, resolution
    returns the identifier all the same.  Each of the five endpoints then
    goes on as it does for a caller that supplies the resolved identifier,
    and serves the call from the session stored under it. *)
Theorem session_resolution_policy (p : option string) (w : World) :
  (forall s, p = Some s -> s <> "" ->
     _get_session_id_or_latest p w = (Ok s, w)) /\
  (p = None \/ p = Some "" ->
     (AUTO_SESSION_ENABLED = false ->
        _get_session_id_or_latest p w =
        (HTTPException 401
           "session_id required (AUTO_SESSION_ENABLED is disabled)", w)) /\
     (AUTO_SESSION_ENABLED = true ->
        (forall sid, sid <> "" ->
           fst (get_latest_session_id w) = Ok (Some sid) ->
           _get_session_id_or_latest p w = (Ok sid, w)) /\
        match session_active w with
        | (Ok active, _) =>
            _get_session_id_or_latest p w = (Ok (as_session_id active), w)
        | (HTTPException _ _, _) =>
            exists d, _get_session_id_or_latest p w = (HTTPException 401 d, w)
        | (OtherException, _) =>
            exists sid ses,
              _get_session_id_or_latest p w = (Ok sid, w) /\
              fst (get_latest_session_id w) = Ok (Some sid) /\
              get sid (sessions w) = Some ses /\
              strftime_utc (created_at ses) = None
        end) /\
     (AUTO_SESSION_ENABLED = true -> sessions w = [] ->
        exists d, _get_session_id_or_latest p w = (HTTPException 401 d, w))) /\
  (forall method path query hdrs body,
     let endpoint :=
       fun p => call (mkCallRequest p method path query hdrs body) in
     resolves_first endpoint /\
     serves_session endpoint
       (Some (match hdrs with Some h => h | None => [] end))) /\
  (forall name fields order_by,
     let endpoint := fun p => obs_by_name p name fields order_by in
     resolves_first endpoint /\ serves_session endpoint None) /\
  (forall filter_ fields order_by limit,
     let endpoint :=
       fun p => projects_list p filter_ fields order_by limit in
     resolves_first endpoint /\ serves_session endpoint None) /\
  (forall q fields order_by limit,
     let endpoint := fun p => obs_find p q fields order_by limit in
     resolves_first endpoint /\ serves_session endpoint None) /\
  (forall obs_name obs_id fields order_by limit,
     let endpoint :=
       fun p => projects_by_obs p obs_name obs_id fields order_by limit in
     resolves_first endpoint /\ serves_session endpoint None).
Proof.
  split; [|split; [|split; [|split; [|split; [|split]]]]].
  - intros s -> Hs. now apply resolve_explicit.
  - intros Hp. apply provided_truthy_none in Hp. split; [|split].
    + intros Hoff. now apply resolve_auto_off.
    + intros Hon. split.
      * intros sid Hne Hlatest.
        unfold get_latest_session_id, gets in Hlatest. simpl in Hlatest.
        inversion Hlatest as [Hl].
        rewrite resolve_auto_on by assumption. rewrite Hl.
        assert (Ht : provided_truthy (Some sid) = Some sid)
          by (apply provided_truthy_some; auto).
        now rewrite Ht.
      * rewrite session_active_run, resolve_auto_on by assumption.
        destruct (provided_truthy (latest_of (sessions w))) as [sid|] eqn:El.
        -- apply provided_truthy_some in El. destruct El as [El _].
           destruct (latest_of_stored _ _ El) as [ses Hses]. rewrite Hses.
           destruct (strftime_utc (created_at ses)) eqn:Ef; [reflexivity|].
           exists sid, ses. repeat split; auto.
           unfold get_latest_session_id, gets. simpl. now rewrite El.
        -- eauto.
    + intros Hon Hempty. rewrite resolve_auto_on by assumption.
      rewrite Hempty. simpl. eauto.
  - intros. split;
      [apply call_resolves_first | apply call_serves_session].
  - intros. split;
      [apply obs_by_name_resolves_first | apply obs_by_name_serves_session].
  - intros. split;
      [apply projects_list_resolves_first
      | apply projects_list_serves_session].
  - intros. split;
      [apply obs_find_resolves_first | apply obs_find_serves_session].
  - intros. split;
      [apply projects_by_obs_resolves_first
      | apply projects_by_obs_serves_session].
Qed.

(** ** Session creation *)

(** [POST /login], step by step: a successful login reads the clock twice,
    first for the identifier and then for the creation time. *)
Lemma login_run req w resp w' :
  login req w = (Ok resp, w') ->
  exists lr,
    let sid := PyStr.str_of_int (millis (time_time (clock_reads w))) in
    let ses :=
      mkSession (_extract_cookies lr) (token_of lr)
        (time_time (S (clock_reads w))) (Some (lr_databaseName req))
        (if lr_remember req
         then Some (mkSavedCreds (lr_username req) (lr_password req)
                      (lr_databaseName req))
         else None) in
    lresp_session_id resp = sid /\
    sessions w' = set sid ses (sessions w) /\
    clock_reads w' = S (S (clock_reads w)) /\
    is_optional_str (token_of lr) = true.
Proof.
  unfold login, _try_login, _mk_session_id, read_clock, add_session,
    _save_to_disk, send, bind, ret, modify, raise_http, raise_other. simpl.
  destruct (upstream (trace w) _) as [lr|]; simpl; [|discriminate].
  destruct (status_code lr >=? 400); simpl; [discriminate|].
  destruct (is_optional_str (token_of lr)) eqn:Ev; simpl; [|discriminate].
  destruct (disk_writable w); simpl; intros H; inversion H; subst; clear H;
    exists lr; simpl; auto.
Qed.

(** C3 (amended).  A session is named after the millisecond count the
    code computes from the clock when it is created: the reading times
    1000, rounded to a double and truncated.  Of two sessions created one
    after the other, those for which that count differs get distinct
    identifiers and are both in the store afterwards; those for which it
    is the same get the same identifier, and the store holds the second
    under it, in the place of the first. *)
Theorem login_ids_follow_the_clock req1 req2 w w1 w2 resp1 resp2 :
  login req1 w = (Ok resp1, w1) ->
  login req2 w1 = (Ok resp2, w2) ->
  let ms1 := millis (time_time (clock_reads w)) in
  let ms2 := millis (time_time (clock_reads w1)) in
  lresp_session_id resp1 = PyStr.str_of_int ms1 /\
  lresp_session_id resp2 = PyStr.str_of_int ms2 /\
  (ms1 <> ms2 ->
     lresp_session_id resp1 <> lresp_session_id resp2 /\
     get (lresp_session_id resp1) (sessions w2) =
       get (lresp_session_id resp1) (sessions w1) /\
     mem (lresp_session_id resp1) (sessions w2) = true /\
     mem (lresp_session_id resp2) (sessions w2) = true) /\
  (ms1 = ms2 ->
     lresp_session_id resp1 = lresp_session_id resp2 /\
     keys (sessions w2) = keys (sessions w1) /\
     exists ses2,
       get (lresp_session_id resp1) (sessions w2) = Some ses2 /\
       created_at ses2 = time_time (S (clock_reads w1))).
Proof.
  intros H1 H2 ms1 ms2.
  destruct (login_run _ _ _ _ H1) as [lr1 [Hid1 [Hs1 _]]].
  destruct (login_run _ _ _ _ H2) as [lr2 [Hid2 [Hs2 _]]].
  fold ms1 in Hid1, Hs1. fold ms2 in Hid2, Hs2.
  split; [assumption|]. split; [assumption|]. split.
  - intros Hne.
    assert (Hd : lresp_session_id resp2 <> lresp_session_id resp1).
    { rewrite Hid1, Hid2. intros Heq. apply str_of_int_inj in Heq. auto. }
    split; [auto|]. rewrite Hs2. rewrite <- Hid2. split; [|split].
    + now apply get_set_other.
    + rewrite mem_set_other by assumption.
      rewrite Hs1, <- Hid1. apply mem_set_same.
    + apply mem_set_same.
  - intros Heq.
    assert (Hsame : lresp_session_id resp1 = lresp_session_id resp2)
      by now rewrite Hid1, Hid2, Heq.
    split; [assumption|]. rewrite Hs2. rewrite <- Hid2, <- Hsame. split.
    + rewrite keys_set. rewrite Hs1, <- Hid1. now rewrite mem_set_same.
    + eexists. split; [apply get_set_same|]. reflexivity.
Qed.

(** ** The target URL *)

Lemma forall_chars_app P a b :
  PyStr.forall_chars P (a ++ b) =
  PyStr.forall_chars P a && PyStr.forall_chars P b.
Proof.
  induction a as [|c a IH]; simpl; auto. rewrite IH. apply andb_assoc.
Qed.

Lemma contains_char_app c a b :
  PyStr.contains_char c (a ++ b) =
  PyStr.contains_char c a || PyStr.contains_char c b.
Proof.
  induction a as [|x a IH]; simpl; auto. rewrite IH. apply orb_assoc.
Qed.

Lemma percent_chars a : PyStr.forall_chars UrlLib.query_char (UrlLib.percent a) = true.
Proof. destruct a as [[] [] [] [] [] [] [] []]; reflexivity. Qed.

Lemma quote_chars (P : ascii -> bool) safe s :
  (forall c, UrlLib.always_safe c = true -> P c = true) ->
  (forall c, PyStr.contains_char c safe = true -> P c = true) ->
  (forall a, PyStr.forall_chars P (UrlLib.percent a) = true) ->
  PyStr.forall_chars P (UrlLib.quote safe s) = true.
Proof.
  intros Hsafe Hextra Hpct. induction s as [|a s IH]; simpl; auto.
  rewrite forall_chars_app, IH, andb_true_r. unfold UrlLib.quote_char.
  destruct (UrlLib.always_safe a || PyStr.contains_char a safe) eqn:E; auto.
  simpl. rewrite andb_true_r.
  apply orb_true_iff in E. destruct E; auto.
Qed.

Lemma spaces_to_plus_chars s :
  PyStr.forall_chars (fun c => UrlLib.query_char c || Ascii.eqb c " ") s = true ->
  PyStr.forall_chars UrlLib.query_char (UrlLib.spaces_to_plus s) = true.
Proof.
  induction s as [|a s IH]; simpl; auto.
  intros H. apply andb_true_iff in H. destruct H as [Ha Hs].
  rewrite IH by assumption. rewrite andb_true_r.
  destruct (Ascii.eqb a " "); auto. now rewrite orb_false_r in Ha.
Qed.

Lemma quote_plus_chars s :
  PyStr.forall_chars UrlLib.query_char (UrlLib.quote_plus s) = true.
Proof.
  unfold UrlLib.quote_plus. destruct (PyStr.contains_char " " s).
  - apply spaces_to_plus_chars. apply quote_chars.
    + intros c Hc. unfold UrlLib.query_char. now rewrite Hc.
    + intros c Hc. cbn [PyStr.contains_char] in Hc.
      rewrite orb_false_r, Ascii.eqb_sym in Hc. rewrite Hc. apply orb_true_r.
    + intros a. generalize (percent_chars a). unfold UrlLib.percent. simpl.
      intros H. repeat (apply andb_true_iff in H; destruct H as [?H H]).
      repeat (apply andb_true_iff; split); auto;
        match goal with Hq : ?x = true |- ?x || _ = true => now rewrite Hq end.
  - apply quote_chars.
    + intros c Hc. unfold UrlLib.query_char. now rewrite Hc.
    + intros c Hc. discriminate.
    + apply percent_chars.
Qed.

Lemma join_chars P sep l :
  PyStr.forall_chars P sep = true ->
  Forall (fun x => PyStr.forall_chars P x = true) l ->
  PyStr.forall_chars P (PyStr.join sep l) = true.
Proof.
  intros Hsep Hl. induction Hl as [|x l Hx Hl IH]; simpl; auto.
  destruct l as [|y l]; auto.
  rewrite !forall_chars_app, Hx, Hsep. exact IH.
Qed.

Lemma pair_chars k v :
  PyStr.forall_chars UrlLib.query_char
    (UrlLib.quote_plus k ++ "=" ++ UrlLib.quote_plus v) = true.
Proof. now rewrite !forall_chars_app, !quote_plus_chars. Qed.

(** An encoded query string has no character outside the encoded
    alphabet. *)
Lemma urlencode_chars params :
  PyStr.forall_chars UrlLib.query_char (UrlLib.urlencode params) = true.
Proof.
  unfold UrlLib.urlencode. apply join_chars; [reflexivity|].
  apply Forall_forall. intros x Hx. apply in_flat_map in Hx.
  destruct Hx as [[k v] [_ Hx]]. unfold UrlLib.pairs_of_entry in Hx. simpl in Hx.
  destruct v as [sc|l].
  - destruct Hx as [<-|[]]. apply pair_chars.
  - apply in_map_iff in Hx. destruct Hx as [elt [<- _]]. apply pair_chars.
Qed.

Lemma normalize_path_cases path :
  PyStr.startswith "/" (normalize_path path) = true /\
  (PyStr.startswith "/" path = true -> normalize_path path = path) /\
  (PyStr.startswith "/" path = false -> normalize_path path = "/" ++ path).
Proof.
  unfold normalize_path. destruct (PyStr.startswith "/" path) eqn:E.
  - repeat split; auto. discriminate.
  - repeat split; auto; try discriminate.
    unfold PyStr.startswith. simpl. now destruct path.
Qed.

(** C9 (amended).  The target URL is the upstream base, taken without
    trailing ['/'], followed by the path, to which a ['/'] is prepended
    when it does not begin with one (a path that begins with one is taken
    as it is).  Without query parameters nothing follows: then the URL has
    a ['?'] only if the base or the path has one.  With query parameters a
    ['?'] and their encoding follow, in which every character is
    unreserved or one of [%], [+], [=], [&]; the filter [Name='X'] is
    encoded as [Filter=Name%3D%27X%27]. *)
Theorem target_url_shape (path : string) (query : option (pydict UrlLib.qvalue)) :
  let base := PyStr.rstrip "/" P6_BASE_URL in
  let p := normalize_path path in
  let url := _build_target_url path query in
  (PyStr.startswith "/" p = true /\
   (PyStr.startswith "/" path = true -> p = path) /\
   (PyStr.startswith "/" path = false -> p = "/" ++ path)) /\
  match query with
  | None | Some [] =>
      url = base ++ p /\
      PyStr.contains_char "?" url =
        PyStr.contains_char "?" base || PyStr.contains_char "?" path
  | Some params =>
      url = base ++ p ++ "?" ++ UrlLib.urlencode params /\
      PyStr.forall_chars UrlLib.query_char (UrlLib.urlencode params) = true
  end /\
  UrlLib.urlencode [("Filter", UrlLib.QScalar (UrlLib.QStr "Name='X'"))] =
    "Filter=Name%3D%27X%27".
Proof.
  intros base p url. split; [apply normalize_path_cases|].
  split; [|reflexivity].
  assert (Hq : PyStr.contains_char "?" (base ++ p) =
               PyStr.contains_char "?" base || PyStr.contains_char "?" path).
  { rewrite contains_char_app. f_equal. unfold p, normalize_path.
    destruct (PyStr.startswith "/" path); reflexivity. }
  unfold url, _build_target_url. fold base p.
  destruct query as [[|kv more]|]; auto.
  split; [reflexivity|apply urlencode_chars].
Qed.

(** * Further properties of the program *)

(** ** The store under the relay *)

(** The run of a relay call whose first reply is not a 401. *)
Lemma relay_pass_run ses_id method url headers data jb w ses r :
  get ses_id (sessions w) = Some ses ->
  host_of url = ALLOWED_HOST ->
  upstream (trace w) (EvRequest method url headers data jb) = Some r ->
  status_code r <> 401 ->
  _upstream_with_retry ses_id method url headers data jb w =
  (Ok r, log_event (EvRequest method url headers data jb) w).
Proof.
  intros Hses Hhost Hfirst Hne. run_py.
  rewrite Hses, Hhost, String.eqb_refl. simpl. rewrite Hfirst. simpl.
  apply Z.eqb_neq in Hne. now rewrite Hne.
Qed.

(** X1.  A relay call whose first request is answered with any status but
    401 hands that reply back as it is: one request has been sent, no
    login, and the store and the snapshot are as before. *)
Theorem relay_passes_other_statuses_through
    ses_id method url headers data jb w ses r :
  get ses_id (sessions w) = Some ses ->
  host_of url = ALLOWED_HOST ->
  upstream (trace w) (EvRequest method url headers data jb) = Some r ->
  status_code r <> 401 ->
  let out := _upstream_with_retry ses_id method url headers data jb w in
  fst out = Ok r /\
  events_since w (snd out) = [EvRequest method url headers data jb] /\
  sessions (snd out) = sessions w /\
  disk (snd out) = disk w.
Proof.
  intros Hses Hhost Hfirst Hne out. subst out.
  rewrite (relay_pass_run _ _ _ _ _ _ _ _ _ Hses Hhost Hfirst Hne). simpl.
  settle_events w. auto.
Qed.

(** X2.  Whatever happens in a relay call, the store keeps its
    identifiers in their order, every session but the one the call uses is
    untouched, and of that one only the cookie and the token may have
    changed; the snapshot file and the clock are not touched. *)
Theorem relay_changes_only_credentials ses_id method url headers data jb w :
  let w' := snd (_upstream_with_retry ses_id method url headers data jb w) in
  keys (sessions w') = keys (sessions w) /\
  (forall k, k <> ses_id -> get k (sessions w') = get k (sessions w)) /\
  (forall ses, get ses_id (sessions w) = Some ses ->
     exists ses', get ses_id (sessions w') = Some ses' /\
                  same_but_credentials ses ses') /\
  disk w' = disk w /\ clock_reads w' = clock_reads w.
Proof. apply relay_frame. Qed.

(** ** Identifiers stay unique *)

Lemma keys_del_incl {V} (d : pydict V) k k' :
  In k' (keys (del k d)) -> In k' (keys d).
Proof.
  induction d as [|[k0 v0] d IH]; simpl; auto.
  destruct (String.eqb k0 k); simpl; intuition.
Qed.

Lemma NoDup_keys_del {V} (d : pydict V) k :
  NoDup (keys d) -> NoDup (keys (del k d)).
Proof.
  induction d as [|[k0 v0] d IH]; simpl; auto.
  intros Hnd. inversion Hnd as [|? ? Hnotin Hnd']; subst.
  destruct (String.eqb k0 k); simpl; auto.
  constructor; auto. intros Hin. apply Hnotin. eapply keys_del_incl; eauto.
Qed.

Lemma get_del_same {V} (d : pydict V) k :
  NoDup (keys d) -> get k (del k d) = None.
Proof.
  induction d as [|[k0 v0] d IH]; simpl; auto.
  intros Hnd. inversion Hnd as [|? ? Hnotin Hnd']; subst.
  destruct (String.eqb k0 k) eqn:E; simpl.
  - apply String.eqb_eq in E. subst k0. now apply get_None_notin.
  - rewrite E. auto.
Qed.

Lemma del_absent {V} (d : pydict V) k : get k d = None -> del k d = d.
Proof.
  induction d as [|[k0 v0] d IH]; simpl; auto.
  destruct (String.eqb k0 k); [discriminate|].
  intros H. now rewrite IH.
Qed.

Lemma login_sessions req w :
  sessions (snd (login req w)) = sessions w \/
  exists sid ses, sessions (snd (login req w)) = set sid ses (sessions w).
Proof.
  unfold login, _try_login, _mk_session_id, read_clock, add_session,
    _save_to_disk, send, bind, ret, modify, raise_http, raise_other. simpl.
  break_match; simpl; eauto.
Qed.

Lemma call_sessions req w :
  keys (sessions (snd (call req w))) = keys (sessions w).
Proof.
  rewrite call_run.
  destruct (resolve_cases (cr_session_id req) w) as [[sid Hr]|[d Hr]];
    rewrite Hr; auto.
  destruct (get sid (sessions w)); auto. cbv zeta.
  match goal with
  | |- context [_upstream_with_retry ?a ?b ?c ?d ?e ?f w] =>
      pose proof (relay_frame a b c d e f w) as [Hk _];
      destruct (_upstream_with_retry a b c d e f w) as [[r| |] w']
  end; exact Hk.
Qed.

(** A dictionary has one entry per key.  The list that stands for the
    store keeps that shape under every operation that writes to it:
    adding, removing and clearing sessions, a login, a relay call and
    [POST /call]. *)
Lemma store_identifiers_stay_distinct (w : World) :
  NoDup (keys (sessions w)) ->
  (forall sid ses, NoDup (keys (sessions (snd (add_session sid ses w))))) /\
  (forall sid, NoDup (keys (sessions (snd (remove_session sid w))))) /\
  NoDup (keys (sessions (snd (clear_all w)))) /\
  (forall req, NoDup (keys (sessions (snd (login req w))))) /\
  (forall ses_id method url headers data jb,
     NoDup (keys (sessions
       (snd (_upstream_with_retry ses_id method url headers data jb w))))) /\
  (forall req, NoDup (keys (sessions (snd (call req w))))).
Proof.
  intros Hnd. repeat split.
  - intros sid ses. unfold add_session, _save_to_disk, bind, modify. simpl.
    destruct (disk_writable w); simpl; now apply NoDup_keys_set.
  - intros sid. unfold remove_session, _save_to_disk, bind, modify, gets, ret.
    simpl. destruct (mem sid (sessions w)); simpl; auto.
    destruct (disk_writable w); simpl; now apply NoDup_keys_del.
  - unfold clear_all, _save_to_disk, bind, modify. simpl.
    destruct (disk_writable w); simpl; constructor.
  - intros req. destruct (login_sessions req w) as [H|[sid [ses H]]];
      rewrite H; auto. now apply NoDup_keys_set.
  - intros. now rewrite (proj1 (relay_frame _ _ _ _ _ _ w)).
  - intros req. now rewrite call_sessions.
Qed.

(** ** Deleting sessions *)

(** X3.  Removing an identifier the store does not hold changes nothing
    and raises nothing.  Removing one it holds (in a store of distinct
    identifiers) leaves no session under it and every other session in
    place, and removing it once more changes nothing further. *)
Theorem remove_session_is_idempotent sid w :
  (mem sid (sessions w) = false -> remove_session sid w = (Ok tt, w)) /\
  (NoDup (keys (sessions w)) ->
     let w1 := snd (remove_session sid w) in
     fst (remove_session sid w) = Ok tt /\
     get sid (sessions w1) = None /\
     (forall k, k <> sid -> get k (sessions w1) = get k (sessions w)) /\
     remove_session sid w1 = (Ok tt, w1)).
Proof.
  split.
  - intros Hm. unfold remove_session, bind, gets, ret. simpl. now rewrite Hm.
  - intros Hnd.
    assert (Hgone : get sid (sessions (snd (remove_session sid w))) = None).
    { unfold remove_session, _save_to_disk, bind, modify, gets, ret. simpl.
      unfold mem. destruct (get sid (sessions w)) eqn:E; simpl; auto.
      destruct (disk_writable w); simpl; now apply get_del_same. }
    repeat split; auto.
    + unfold remove_session, _save_to_disk, bind, modify, gets, ret. simpl.
      destruct (mem sid (sessions w)); simpl; auto.
      now destruct (disk_writable w).
    + intros k Hk.
      unfold remove_session, _save_to_disk, bind, modify, gets, ret. simpl.
      destruct (mem sid (sessions w)); simpl; auto.
      destruct (disk_writable w); simpl; now apply get_del_other.
    + unfold remove_session at 1. unfold bind, gets, ret. simpl.
      unfold mem. now rewrite Hgone.
Qed.

(** X4.  [DELETE /session/{id}] answers 404 for an identifier the store
    does not hold and changes nothing.  For one it holds it removes the
    session and rewrites the snapshot: afterwards the identifier is gone
    (in a store of distinct identifiers) and, if the file can be written,
    the snapshot equals the store. *)
Theorem delete_session_endpoint sid w :
  (mem sid (sessions w) = false ->
     delete_session sid w = (HTTPException 404 "Session not found", w)) /\
  (mem sid (sessions w) = true ->
     let out := delete_session sid w in
     fst out = Ok ("Session " ++ sid ++ " deleted") /\
     sessions (snd out) = del sid (sessions w) /\
     (NoDup (keys (sessions w)) -> mem sid (sessions (snd out)) = false) /\
     (disk_writable w = true -> disk (snd out) = Some (sessions (snd out)))).
Proof.
  unfold delete_session, remove_session, _save_to_disk, bind, modify, gets,
    ret, raise_http. simpl.
  split; intros Hm; rewrite Hm; simpl; auto.
  rewrite Hm. simpl.
  destruct (disk_writable w) eqn:Ew; simpl; repeat split; auto;
    try discriminate;
    intros Hnd; unfold mem; now rewrite get_del_same.
Qed.

(** ** Logging in *)

Lemma str_of_int_nonempty z : PyStr.str_of_int z <> "".
Proof.
  unfold PyStr.str_of_int, NilZero.string_of_int.
  destruct (Z.to_int z) as [u|u]; [|discriminate].
  unfold NilZero.string_of_uint. destruct u; discriminate.
Qed.

(** [POST /login], step by step. *)
Lemma login_cases req w :
  let el := login_event (lr_username req) (lr_password req)
              (lr_databaseName req) in
  match upstream (trace w) el with
  | None => login req w = (OtherException, log_event el w)
  | Some lr =>
      if status_code lr >=? 400 then
        login req w =
        (HTTPException (status_code lr)
           ("Re-login failed: " ++ PyStr.take_chars 500 (text lr)),
         log_event el w)
      else if negb (is_optional_str (token_of lr)) then
        login req w = (OtherException, tick (tick (log_event el w)))
      else
        let sid := PyStr.str_of_int (millis (time_time (clock_reads w))) in
        let ses :=
          mkSession (_extract_cookies lr) (token_of lr)
            (time_time (S (clock_reads w))) (Some (lr_databaseName req))
            (if lr_remember req
             then Some (mkSavedCreds (lr_username req) (lr_password req)
                          (lr_databaseName req))
             else None) in
        let w1 := tick (tick (log_event el w)) in
        let w2 := set_sessions (set sid ses (sessions w)) w1 in
        login req w =
        (Ok (mkLoginResponse sid (_extract_cookies lr) (token_of lr)
               (lr_remember req)),
         if disk_writable w then set_disk (Some (sessions w2)) w2 else w2)
  end.
Proof.
  unfold login, _try_login, _mk_session_id, read_clock, add_session,
    _save_to_disk, send, bind, ret, modify, raise_http, raise_other. simpl.
  destruct (upstream (trace w) _) as [lr|]; simpl; auto.
  destruct (status_code lr >=? 400); simpl; auto.
  destruct (is_optional_str (token_of lr)); simpl; auto.
  destruct (disk_writable w); reflexivity.
Qed.

(** X5.  A successful login stores what it reports: the session kept
    under the returned identifier has the cookie and the token of the
    answer and the database of the request; it holds the credentials when
    the caller asked to remember them and none otherwise.  The identifier
    is not empty, the sessions under other identifiers are untouched, and
    the login is the only outbound call. *)
Theorem login_stores_what_it_reports req w resp w' :
  login req w = (Ok resp, w') ->
  lresp_session_id resp <> "" /\
  lresp_remember resp = lr_remember req /\
  (exists ses,
     get (lresp_session_id resp) (sessions w') = Some ses /\
     cookies ses = lresp_cookies resp /\
     auth_token ses = lresp_authToken resp /\
     database_name ses = Some (lr_databaseName req) /\
     creds ses =
       (if lr_remember req
        then Some (mkSavedCreds (lr_username req) (lr_password req)
                     (lr_databaseName req))
        else None)) /\
  (forall k, k <> lresp_session_id resp ->
     get k (sessions w') = get k (sessions w)) /\
  events_since w w' =
    [login_event (lr_username req) (lr_password req) (lr_databaseName req)].
Proof.
  intros H. pose proof (login_cases req w) as Hc. cbv zeta in Hc.
  destruct (upstream (trace w) _) as [lr|]; [|congruence].
  destruct (status_code lr >=? 400); [congruence|].
  destruct (negb (is_optional_str (token_of lr))); [congruence|].
  rewrite Hc in H. inversion H; subst; clear H Hc. simpl.
  split; [apply str_of_int_nonempty|]. split; [reflexivity|].
  destruct (disk_writable w); simpl; (split; [|split]);
    try (eexists; split; [apply get_set_same|]; simpl; auto);
    try (intros k Hk; apply get_set_other; auto);
    settle_events w; reflexivity.
Qed.

(** X6.  A login the upstream refuses (a reply with status 400 or above)
    ends in an HTTP error with that status, and a login the upstream does
    not answer ends in an error; in both cases the clock has not been
    read.  A login whose reply is accepted but carries a token that is
    neither null nor a string ends in an error as well, raised when the
    session is constructed, after the clock has been read.  These are the
    only ways a login fails, and in each of them no session is created and
    the snapshot is not written. *)
Theorem refused_login_creates_nothing req w :
  let el := login_event (lr_username req) (lr_password req)
              (lr_databaseName req) in
  let out := login req w in
  (forall lr, upstream (trace w) el = Some lr -> 400 <= status_code lr ->
     (exists d, fst out = HTTPException (status_code lr) d) /\
     clock_reads (snd out) = clock_reads w) /\
  (upstream (trace w) el = None ->
     fst out = OtherException /\ clock_reads (snd out) = clock_reads w) /\
  (forall lr, upstream (trace w) el = Some lr -> status_code lr < 400 ->
     is_optional_str (token_of lr) = false ->
     fst out = OtherException /\
     (clock_reads w < clock_reads (snd out))%nat) /\
  ((forall resp, fst out <> Ok resp) ->
     sessions (snd out) = sessions w /\
     disk (snd out) = disk w /\
     (upstream (trace w) el = None \/
      exists lr, upstream (trace w) el = Some lr /\
                 (400 <= status_code lr \/
                  is_optional_str (token_of lr) = false))).
Proof.
  intros el out. subst out.
  pose proof (login_cases req w) as Hc. cbv zeta in Hc.
  fold el in Hc. split; [|split; [|split]].
  - intros lr Hl Hs. rewrite Hl in Hc.
    assert (Hge : (status_code lr >=? 400) = true) by (apply Z.geb_le; lia).
    rewrite Hge in Hc. rewrite Hc. simpl. eauto.
  - intros Hl. rewrite Hl in Hc. now rewrite Hc.
  - intros lr Hl Hs Hv. rewrite Hl in Hc.
    assert (Hlt : (status_code lr >=? 400) = false).
    { destruct (status_code lr >=? 400) eqn:E; auto.
      apply Z.geb_le in E. lia. }
    rewrite Hlt, Hv in Hc. rewrite Hc. simpl. split; [reflexivity|lia].
  - intros Hno.
    destruct (upstream (trace w) el) as [lr|]; [|rewrite Hc; simpl; auto].
    destruct (status_code lr >=? 400) eqn:Es.
    { rewrite Hc. simpl. repeat split; auto. right. exists lr.
      split; auto. left. apply Z.geb_le in Es. lia. }
    destruct (is_optional_str (token_of lr)) eqn:Ev; simpl in Hc.
    + rewrite Hc in Hno. exfalso. eapply Hno. reflexivity.
    + rewrite Hc. simpl. repeat split; auto. right. exists lr. auto.
Qed.

(** ** The snapshot *)

(** X7.  When the snapshot file can be written, a successful login, the
    removal of a stored session and the clearing of the store each leave
    the snapshot equal to the store, whatever the file held before. *)
Theorem store_operations_write_the_snapshot (w : World) :
  disk_writable w = true ->
  (forall req resp w', login req w = (Ok resp, w') ->
     disk w' = Some (sessions w')) /\
  (forall sid ses,
     disk (snd (add_session sid ses w)) =
     Some (sessions (snd (add_session sid ses w)))) /\
  (forall sid, mem sid (sessions w) = true ->
     disk (snd (remove_session sid w)) =
     Some (sessions (snd (remove_session sid w)))) /\
  disk (snd (clear_all_sessions w)) = Some [] /\
  sessions (snd (clear_all_sessions w)) = [].
Proof.
  intros Hw. repeat split.
  - intros req resp w' H. pose proof (login_cases req w) as Hc. cbv zeta in Hc.
    destruct (upstream (trace w) _) as [lr|]; [|congruence].
    destruct (status_code lr >=? 400); [congruence|].
    destruct (negb (is_optional_str (token_of lr))); [congruence|].
    rewrite Hc, Hw in H. inversion H; subst. reflexivity.
  - intros sid ses. now apply add_session_persists.
  - intros sid Hm. now apply remove_session_persists.
  - unfold clear_all_sessions, clear_all, _save_to_disk, bind, modify, ret.
    simpl. now rewrite Hw.
  - unfold clear_all_sessions, clear_all, _save_to_disk, bind, modify, ret.
    simpl. now rewrite Hw.
Qed.

(** X8.  When the snapshot file cannot be written, the store's operations
    still succeed and change the store in memory as usual; the file is left
    as it was. *)
Theorem unwritable_snapshot_is_not_fatal (w : World) :
  disk_writable w = false ->
  (forall sid ses,
     fst (add_session sid ses w) = Ok tt /\
     sessions (snd (add_session sid ses w)) = set sid ses (sessions w) /\
     disk (snd (add_session sid ses w)) = disk w) /\
  (forall sid,
     fst (remove_session sid w) = Ok tt /\
     sessions (snd (remove_session sid w)) = del sid (sessions w) /\
     disk (snd (remove_session sid w)) = disk w) /\
  (fst (clear_all w) = Ok tt /\
   sessions (snd (clear_all w)) = [] /\
   disk (snd (clear_all w)) = disk w).
Proof.
  intros Hw. repeat split;
    unfold add_session, remove_session, clear_all, _save_to_disk, bind,
      modify, gets, ret; simpl; intros; rewrite ?Hw; simpl; auto.
  - destruct (mem sid (sessions w)); simpl; rewrite ?Hw; auto.
  - unfold mem. destruct (get sid (sessions w)) eqn:E; simpl; rewrite ?Hw; auto.
    simpl. symmetry. now apply del_absent.
  - destruct (mem sid (sessions w)); simpl; rewrite ?Hw; auto.
Qed.

(** ** Which session is the latest *)

Definition stamp (kv : string * Session) : Q := created_at (snd kv).

(** The entry [latest_of] picks: it is in the store and no entry has a
    later timestamp. *)
Lemma latest_of_greatest d sid :
  latest_of d = Some sid ->
  exists ses, In (sid, ses) d /\
              forall kv, In kv d -> (stamp kv <= created_at ses)%Q.
Proof.
  destruct d as [|kv rest]; [discriminate|].
  unfold latest_of. intros H. inversion H as [Hsid]. clear H.
  destruct (py_max_by_split (fun kv => created_at (snd kv)) kv rest)
    as [before [after [Heq [Hb Ha]]]].
  set (m := py_max_by (fun kv => created_at (snd kv)) kv rest) in *.
  exists (snd m). rewrite <- surjective_pairing. split.
  - rewrite Heq. apply in_or_app. right. simpl. auto.
  - intros x Hx. rewrite Heq in Hx. apply in_app_or in Hx.
    destruct Hx as [Hx|[Hx|Hx]].
    + apply Qlt_le_weak. now apply Hb.
    + subst x. apply Qle_refl.
    + now apply Ha.
Qed.

Lemma latest_of_nonempty d : d <> [] -> exists sid, latest_of d = Some sid.
Proof. destruct d; [congruence|]. simpl. eauto. Qed.

(** X9.  When no two sessions share a creation timestamp, the latest
    session does not depend on the order in which the store holds them:
    two stores with the same entries give the same identifier. *)
Theorem latest_ignores_order (d d' : pydict Session) :
  Permutation d d' ->
  (forall x y, In x d -> In y d -> (stamp x == stamp y)%Q -> x = y) ->
  latest_of d = latest_of d'.
Proof.
  intros Hperm Hdistinct.
  destruct d as [|kv rest].
  { apply Permutation_nil in Hperm. now subst d'. }
  destruct (latest_of_nonempty (kv :: rest)) as [sid Hsid]; [discriminate|].
  assert (Hne : d' <> []).
  { intros ->. apply Permutation_sym, Permutation_nil in Hperm. discriminate. }
  destruct (latest_of_nonempty d' Hne) as [sid' Hsid'].
  rewrite Hsid, Hsid'. f_equal.
  destruct (latest_of_greatest _ _ Hsid) as [ses [Hin Hmax]].
  destruct (latest_of_greatest _ _ Hsid') as [ses' [Hin' Hmax']].
  assert (Hin2 : In (sid', ses') (kv :: rest))
    by (eapply Permutation_in; [apply Permutation_sym|]; eauto).
  assert (Hin3 : In (sid, ses) d') by (eapply Permutation_in; eauto).
  assert (Heq : (sid, ses) = (sid', ses')).
  { apply Hdistinct; auto. unfold stamp. simpl.
    apply Qle_antisym.
    - apply (Hmax' (sid, ses) Hin3).
    - apply (Hmax (sid', ses') Hin2). }
  now inversion Heq.
Qed.

Lemma In_set_cases {V} (d : pydict V) k v kv :
  In kv (set k v d) -> kv = (k, v) \/ In kv d.
Proof.
  induction d as [|[k0 v0] d IH]; simpl.
  - intros [H|[]]; auto.
  - destruct (String.eqb k0 k) eqn:E; simpl.
    + apply String.eqb_eq in E. subst k0. intros [H|H]; auto.
    + intros [H|H]; auto. destruct (IH H); auto.
Qed.

Lemma In_set_same {V} (d : pydict V) k v : In (k, v) (set k v d).
Proof.
  induction d as [|[k0 v0] d IH]; simpl; auto.
  destruct (String.eqb k0 k) eqn:E; simpl; auto.
  apply String.eqb_eq in E. subst k0. auto.
Qed.

(** A session stored with a timestamp later than every other's is the
    latest. *)
Lemma latest_of_set_newest d sid ses :
  (forall kv, In kv d -> (stamp kv < created_at ses)%Q) ->
  latest_of (set sid ses d) = Some sid.
Proof.
  intros Hnew.
  destruct (latest_of_nonempty (set sid ses d)) as [m Hm].
  { destruct d as [|[k0 v0] d]; simpl; [discriminate|].
    destruct (String.eqb k0 sid); discriminate. }
  rewrite Hm. f_equal.
  destruct (latest_of_greatest _ _ Hm) as [sm [Hin Hmax]].
  destruct (In_set_cases _ _ _ _ Hin) as [Heq|Hold].
  - now inversion Heq.
  - exfalso. specialize (Hnew _ Hold). unfold stamp in Hnew. simpl in Hnew.
    specialize (Hmax (sid, ses) (In_set_same d sid ses)).
    unfold stamp in Hmax. simpl in Hmax.
    apply (Qlt_irrefl (created_at ses)). eapply Qle_lt_trans; eauto.
Qed.

(** X10.  After a successful login whose creation time is later than that
    of every session already stored, the new session is the latest one:
    [GET /session/active] reports the identifier the login returned, with
    the text of its creation time and with auto-login enabled exactly when
    the caller asked to remember the credentials (it fails only where that
    time cannot be formatted), and a call without identifier resolves to
    it. *)
Theorem login_becomes_the_active_session req w resp w' :
  login req w = (Ok resp, w') ->
  (forall kv, In kv (sessions w) ->
     (stamp kv < time_time (S (clock_reads w)))%Q) ->
  AUTO_SESSION_ENABLED = true ->
  session_active w' =
    match strftime_utc (time_time (S (clock_reads w))) with
    | Some text =>
        (Ok (mkActiveSession (lresp_session_id resp) text (lr_remember req)
               (Some (lr_databaseName req))), w')
    | None => (OtherException, w')
    end /\
  _get_session_id_or_latest None w' = (Ok (lresp_session_id resp), w').
Proof.
  intros H Hnew Hon.
  destruct (login_run _ _ _ _ H) as [lr [Hid [Hs _]]].
  assert (Hlatest : latest_of (sessions w') = Some (lresp_session_id resp)).
  { rewrite Hs, Hid. now apply latest_of_set_newest. }
  assert (Htruthy : provided_truthy (latest_of (sessions w')) =
                    Some (lresp_session_id resp)).
  { rewrite Hlatest. apply provided_truthy_some. split; auto.
    rewrite Hid. apply str_of_int_nonempty. }
  split.
  - rewrite session_active_run, Htruthy, Hs, Hid, get_set_same. simpl.
    destruct (strftime_utc _); [|reflexivity].
    now destruct (lr_remember req).
  - rewrite resolve_auto_on by auto. now rewrite Htruthy.
Qed.

(** X11.  After [DELETE /sessions/clear] there is no session to fall back
    on: [GET /session/active] answers 404, and with auto-selection on a
    [POST /call] without identifier ends in a 401 without any outbound
    call. *)
Theorem cleared_store_has_no_active_session (w : World) :
  let w0 := snd (clear_all_sessions w) in
  fst (clear_all_sessions w) = Ok "All sessions cleared" /\
  session_active w0 = (HTTPException 404 "No active sessions", w0) /\
  (AUTO_SESSION_ENABLED = true ->
     forall method path query hdrs body,
       exists d,
         call (mkCallRequest None method path query hdrs body) w0 =
         (HTTPException 401 d, w0)).
Proof.
  intros w0.
  assert (Hempty : sessions w0 = []).
  { unfold w0, clear_all_sessions, clear_all, _save_to_disk, bind, modify, ret.
    simpl. now destruct (disk_writable w). }
  split; [|split].
  - unfold clear_all_sessions, clear_all, _save_to_disk, bind, modify, ret.
    simpl. now destruct (disk_writable w).
  - rewrite session_active_run, Hempty. reflexivity.
  - intros Hon method path query hdrs body. rewrite call_run. simpl.
    rewrite resolve_auto_on by auto. rewrite Hempty. simpl. eauto.
Qed.

(** ** The host of a built URL *)

Lemma substring_whole s : substring 0 (String.length s) s = s.
Proof. induction s as [|c s IH]; simpl; auto. now rewrite IH. Qed.

Lemma prefix_other_head (c : ascii) sep' s :
  c <> "/"%char -> String.prefix (String "/" sep') (String c s) = false.
Proof.
  intros Hc. cbn [String.prefix]. destruct (ascii_dec "/" c) as [E|E]; auto.
  subst c. contradiction.
Qed.

Lemma prefix_same_head sep' s :
  String.prefix (String "/" sep') (String "/" s) = String.prefix sep' s.
Proof.
  cbn [String.prefix]. destruct (ascii_dec "/" "/") as [_|E]; congruence.
Qed.

Lemma no_slash_head c s :
  PyStr.contains_char "/" (String c s) = false ->
  c <> "/"%char /\ PyStr.contains_char "/" s = false.
Proof.
  simpl. intros H. apply orb_false_iff in H. destruct H as [Hc Hs].
  split; auto. intros ->. discriminate.
Qed.

(** The text after the first ["//"], when nothing before it has a ['/']. *)
Lemma after_first_scheme scheme x :
  PyStr.contains_char "/" scheme = false ->
  PyStr.after_first "//" (scheme ++ "//" ++ x) = Some x.
Proof.
  intros Hs. induction scheme as [|c scheme IH].
  - cbn [append PyStr.after_first]. rewrite !prefix_same_head.
    cbn [String.prefix String.length substring Nat.sub].
    replace (String.prefix "" x) with true by (now destruct x).
    now rewrite Nat.sub_0_r, substring_whole.
  - apply no_slash_head in Hs. destruct Hs as [Hc Hs].
    change (String c scheme ++ "//" ++ x)
      with (String c (scheme ++ "//" ++ x)).
    cbn [PyStr.after_first].
    rewrite prefix_other_head by assumption. now apply IH.
Qed.

Lemma split_after_scheme scheme x :
  PyStr.contains_char "/" scheme = false ->
  PyStr.split1_last "//" (scheme ++ "//" ++ x) = x.
Proof.
  intros Hs. unfold PyStr.split1_last. now rewrite after_first_scheme.
Qed.

(** The text before the first ['/'] of a host followed by nothing or by a
    path. *)
Lemma split_before_path host rest :
  PyStr.contains_char "/" host = false ->
  rest = "" \/ PyStr.startswith "/" rest = true ->
  PyStr.split1_head "/" (host ++ rest) = host.
Proof.
  unfold PyStr.split1_head. intros Hh Hrest.
  induction host as [|c host IH].
  - simpl. destruct Hrest as [->|Hr]; [reflexivity|].
    destruct rest as [|r rest]; [reflexivity|].
    unfold PyStr.startswith in Hr. cbn [PyStr.before_first]. now rewrite Hr.
  - apply no_slash_head in Hh. destruct Hh as [Hc Hh].
    cbn [append PyStr.before_first].
    rewrite prefix_other_head by assumption. now rewrite IH.
Qed.

Lemma host_of_parts scheme host rest :
  PyStr.contains_char "/" scheme = false ->
  PyStr.contains_char "/" host = false ->
  rest = "" \/ PyStr.startswith "/" rest = true ->
  host_of (scheme ++ "//" ++ host ++ rest) = host.
Proof.
  intros Hs Hh Hr. unfold host_of.
  rewrite split_after_scheme by assumption. now apply split_before_path.
Qed.

Lemma rstrip_app c a b :
  PyStr.rstrip c (a ++ b) =
  match PyStr.rstrip c b with
  | EmptyString => PyStr.rstrip c a
  | r => a ++ r
  end.
Proof.
  induction a as [|x a IH]; simpl.
  - now destruct (PyStr.rstrip c b).
  - rewrite IH. destruct (PyStr.rstrip c b) eqn:Eb; auto.
    simpl. destruct a; reflexivity.
Qed.

Lemma rstrip_clean c s :
  PyStr.contains_char c s = false -> PyStr.rstrip c s = s.
Proof.
  induction s as [|x s IH]; simpl; auto.
  intros H. apply orb_false_iff in H. destruct H as [Hx Hs].
  rewrite IH by assumption. destruct s; auto. now rewrite Hx.
Qed.

Lemma rstrip_head c s :
  PyStr.rstrip c s = "" \/
  exists x r, PyStr.rstrip c s = String x r /\ exists s', s = String x s'.
Proof.
  destruct s as [|x s]; simpl; auto.
  destruct (PyStr.rstrip c s) eqn:E.
  - destruct (Ascii.eqb x c); auto.
    right. exists x, "". eauto.
  - right. eauto.
Qed.

Lemma startswith_slash s :
  PyStr.startswith "/" s = true <-> exists s', s = String "/" s'.
Proof.
  unfold PyStr.startswith. split.
  - destruct s as [|c s]; [discriminate|]. cbn [String.prefix].
    destruct (ascii_dec "/" c) as [<-|]; [eauto | discriminate].
  - intros [s' ->]. rewrite prefix_same_head. now destruct s'.
Qed.

Lemma append_nil_r s : s ++ "" = s.
Proof. induction s; simpl; auto. now rewrite IHs. Qed.

Lemma append_assoc a b c : (a ++ b) ++ c = a ++ (b ++ c).
Proof. induction a; simpl; auto. now rewrite IHa. Qed.

(** The HTTP errors of a relay call: a 401 for an unknown session and a
    400 for another host; a refused re-login never comes out as one. *)
Lemma relay_http_errors ses_id method url headers data jb w s d :
  fst (_upstream_with_retry ses_id method url headers data jb w) =
    HTTPException s d ->
  (s = 401 /\ get ses_id (sessions w) = None) \/
  (s = 400 /\ host_of url <> ALLOWED_HOST).
Proof.
  run_py. break_match; simpl; intros H; try discriminate;
    inversion H; subst; auto.
  right. split; auto.
  match goal with
  | Hn : negb (String.eqb _ _) = true |- _ =>
      apply negb_true_iff, String.eqb_neq in Hn; exact Hn
  end.
Qed.

(** X12.  For a base URL made of a scheme, ["//"], a host and nothing or a
    path, the host the code reads off any URL it builds is the host of the
    base, whatever the path and the query: with the allowed host left at
    its default, [POST /call] never answers "Host not allowed". *)
Theorem built_urls_keep_the_base_host scheme host rest :
  P6_BASE_URL = scheme ++ "//" ++ host ++ rest ->
  PyStr.contains_char "/" scheme = false ->
  PyStr.contains_char "/" host = false ->
  host <> "" ->
  rest = "" \/ PyStr.startswith "/" rest = true ->
  DEFAULT_ALLOWED_HOST = host /\
  (forall path query, host_of (_build_target_url path query) = host) /\
  (ALLOWED_HOST = DEFAULT_ALLOWED_HOST ->
     forall req w d, fst (call req w) <> HTTPException 400 d).
Proof.
  intros Hbase Hs Hh Hne Hrest.
  assert (Hdefault : DEFAULT_ALLOWED_HOST = host).
  { unfold DEFAULT_ALLOWED_HOST. rewrite Hbase. now apply host_of_parts. }
  assert (Hbuilt : forall path query,
             host_of (_build_target_url path query) = host).
  { intros path query. unfold _build_target_url.
    set (p := normalize_path path).
    assert (Hp : exists p', p = String "/" p').
    { unfold p, normalize_path. destruct (PyStr.startswith "/" path) eqn:E.
      - now apply startswith_slash.
      - simpl. eauto. }
    destruct Hp as [p' Hp].
    assert (Hstrip : PyStr.rstrip "/" P6_BASE_URL =
                     scheme ++ "//" ++ host ++ PyStr.rstrip "/" rest).
    { rewrite Hbase.
      replace (scheme ++ "//" ++ host ++ rest)
        with ((scheme ++ "//" ++ host) ++ rest)
        by (now rewrite !append_assoc).
      rewrite rstrip_app.
      assert (Hkeep : PyStr.rstrip "/" (scheme ++ "//" ++ host) =
                      scheme ++ "//" ++ host).
      { replace (scheme ++ "//" ++ host) with ((scheme ++ "//") ++ host)
          by (now rewrite !append_assoc).
        rewrite rstrip_app, rstrip_clean by assumption.
        destruct host; [congruence | reflexivity]. }
      destruct (PyStr.rstrip "/" rest) eqn:Er.
      - rewrite Hkeep. now rewrite append_nil_r.
      - now rewrite !append_assoc. }
    assert (Hform : forall tail,
       host_of (PyStr.rstrip "/" P6_BASE_URL ++ p ++ tail) = host).
    { intros tail. rewrite Hstrip, Hp. rewrite !append_assoc.
      apply host_of_parts; auto. right.
      destruct (rstrip_head "/" rest) as [E|[x [r [E [s' Es']]]]].
      - rewrite E. apply startswith_slash. simpl. eauto.
      - rewrite E. destruct Hrest as [->|Hr]; [discriminate|].
        apply startswith_slash in Hr. destruct Hr as [r' Hr].
        rewrite Hr in Es'. inversion Es'; subst.
        apply startswith_slash. simpl. eauto. }
    destruct (match query with Some q => q | None => [] end).
    - rewrite <- (Hform ""). now rewrite append_nil_r.
    - apply Hform. }
  split; [assumption|]. split; [assumption|].
  intros Hallowed req w d Hcall. rewrite call_run in Hcall.
  destruct (resolve_cases (cr_session_id req) w) as [[sid Hr]|[d' Hr]];
    rewrite Hr in Hcall; [|simpl in Hcall; discriminate].
  destruct (get sid (sessions w)) eqn:Hses; [|simpl in Hcall; discriminate].
  cbv zeta in Hcall.
  match type of Hcall with
  | context [_upstream_with_retry ?a ?b ?c ?e ?f ?g w] =>
      pose proof (relay_http_errors a b c e f g w) as Herr;
      destruct (_upstream_with_retry a b c e f g w) as [[r|s0 d0|] w1]
  end; simpl in Hcall; try discriminate.
  injection Hcall as Hs0 Hd0.
  destruct (Herr s0 d0 eq_refl) as [[Hs401 _]|[_ Hhost]]; [congruence|].
  apply Hhost. rewrite Hallowed, Hdefault. apply Hbuilt.
Qed.

(** X13.  The only HTTP errors a relay call raises by itself are the 401
    for a session the store does not hold and the 400 for a URL on another
    host; in both cases nothing has been sent.  A re-login that is refused
    does not come out as an error. *)
Theorem relay_raises_only_401_and_400
    ses_id method url headers data jb w s d :
  fst (_upstream_with_retry ses_id method url headers data jb w) =
    HTTPException s d ->
  ((s = 401 /\ get ses_id (sessions w) = None) \/
   (s = 400 /\ host_of url <> ALLOWED_HOST)) /\
  snd (_upstream_with_retry ses_id method url headers data jb w) = w.
Proof.
  intros H. split; [eapply relay_http_errors; eauto|].
  destruct (relay_http_errors _ _ _ _ _ _ _ _ _ H) as [[_ Hn]|[_ Hh]].
  - now rewrite relay_unknown_session.
  - destruct (get ses_id (sessions w)) eqn:E.
    + erewrite relay_rejects_other_host; eauto.
    + now rewrite relay_unknown_session.
Qed.

(** ** Percent-encoding *)

(** What [quote_plus] makes of one character. *)
Definition plus_char (a : ascii) : string :=
  if Ascii.eqb a " " then "+"
  else if UrlLib.always_safe a then String a "" else UrlLib.percent a.

Fixpoint plus_chars (s : string) : string :=
  match s with
  | EmptyString => EmptyString
  | String a s' => plus_char a ++ plus_chars s'
  end.

Lemma spaces_to_plus_app a b :
  UrlLib.spaces_to_plus (a ++ b) =
  UrlLib.spaces_to_plus a ++ UrlLib.spaces_to_plus b.
Proof. induction a as [|x a IH]; simpl; auto. now rewrite IH. Qed.

Lemma percent_no_space a :
  UrlLib.spaces_to_plus (UrlLib.percent a) = UrlLib.percent a.
Proof. destruct a as [[] [] [] [] [] [] [] []]; reflexivity. Qed.

Lemma quote_space_plus s :
  UrlLib.spaces_to_plus (UrlLib.quote " " s) = plus_chars s.
Proof.
  induction s as [|a s IH]; simpl; auto.
  rewrite spaces_to_plus_app, IH. f_equal.
  unfold UrlLib.quote_char, plus_char. cbn [PyStr.contains_char].
  rewrite orb_false_r, (Ascii.eqb_sym " " a).
  destruct (Ascii.eqb a " ") eqn:Esp.
  - apply Ascii.eqb_eq in Esp. subst a. reflexivity.
  - rewrite orb_false_r. destruct (UrlLib.always_safe a).
    + simpl. now rewrite Esp.
    + apply percent_no_space.
Qed.

Lemma quote_plain s :
  PyStr.contains_char " " s = false -> UrlLib.quote "" s = plus_chars s.
Proof.
  induction s as [|a s IH]; simpl; auto.
  intros H. apply orb_false_iff in H. destruct H as [Ha Hs].
  rewrite IH by assumption. f_equal.
  unfold UrlLib.quote_char, plus_char. simpl. rewrite orb_false_r.
  now rewrite Ha.
Qed.

(** [quote_plus] works character by character. *)
Lemma quote_plus_by_char s : UrlLib.quote_plus s = plus_chars s.
Proof.
  unfold UrlLib.quote_plus. destruct (PyStr.contains_char " " s) eqn:E.
  - apply quote_space_plus.
  - now apply quote_plain.
Qed.

(** The value of a hexadecimal digit. *)
Definition hex_value (a : ascii) : N :=
  let n := N_of_ascii a in
  if (n <? 58)%N then (n - 48)%N else (n - 55)%N.

Lemma percent_decodes a :
  match UrlLib.percent a with
  | String _ (String hi (String lo EmptyString)) =>
      ascii_of_N (16 * hex_value hi + hex_value lo) = a
  | _ => False
  end.
Proof. destruct a as [[] [] [] [] [] [] [] []]; reflexivity. Qed.

Lemma percent_shape a :
  exists hi lo, UrlLib.percent a = String "%" (String hi (String lo "")).
Proof. unfold UrlLib.percent. eauto. Qed.

Lemma percent_inj a b : UrlLib.percent a = UrlLib.percent b -> a = b.
Proof.
  intros H. pose proof (percent_decodes a) as Ha.
  pose proof (percent_decodes b) as Hb. rewrite H in Ha.
  destruct (percent_shape b) as [hi [lo E]]. rewrite E in Ha, Hb. congruence.
Qed.

(** The first character of an encoded character tells its kind. *)
Lemma plus_char_cases a :
  (a = " "%char /\ plus_char a = "+") \/
  (UrlLib.always_safe a = true /\ plus_char a = String a "") \/
  (UrlLib.always_safe a = false /\ a <> " "%char /\
   plus_char a = UrlLib.percent a).
Proof.
  unfold plus_char. destruct (Ascii.eqb a " ") eqn:Esp.
  - apply Ascii.eqb_eq in Esp. auto.
  - apply Ascii.eqb_neq in Esp.
    destruct (UrlLib.always_safe a) eqn:Es; auto.
Qed.

Lemma plus_chars_inj s1 : forall s2, plus_chars s1 = plus_chars s2 -> s1 = s2.
Proof.
  induction s1 as [|a s1 IH]; intros [|b s2]; simpl; auto.
  - destruct (plus_char_cases b) as [[_ E]|[[_ E]|[_ [_ E]]]]; rewrite E;
      discriminate.
  - destruct (plus_char_cases a) as [[_ E]|[[_ E]|[_ [_ E]]]]; rewrite E;
      discriminate.
  - intros H.
    destruct (percent_shape a) as [hi [lo E1]].
    destruct (percent_shape b) as [hi' [lo' E2]].
    destruct (plus_char_cases a) as [[Ha Ea]|[[Ha Ea]|[Ha [Hna Ea]]]];
      destruct (plus_char_cases b) as [[Hb Eb]|[[Hb Eb]|[Hb [Hnb Eb]]]];
      rewrite Ea, Eb in H;
      try (rewrite E1 in H); try (rewrite E2 in H);
      simpl in H; inversion H; subst;
      try discriminate; try (f_equal; auto; fail).
    assert (Hab : a = b).
    { apply percent_inj. rewrite E1, E2. congruence. }
    subst b. f_equal. auto.
Qed.

(** [quote_plus] is one-to-one. *)
Lemma quote_plus_inj s1 s2 :
  UrlLib.quote_plus s1 = UrlLib.quote_plus s2 -> s1 = s2.
Proof. rewrite !quote_plus_by_char. apply plus_chars_inj. Qed.

Lemma append_cancel_l a x y : a ++ x = a ++ y -> x = y.
Proof. induction a; simpl; intros H; auto. inversion H. auto. Qed.

(** X14.  The URL built for a query with one text parameter determines
    the text: on the same base, path and parameter name, two different
    values never give the same URL. *)
Theorem built_url_determines_the_value path k v1 v2 :
  _build_target_url path (Some [(k, UrlLib.QScalar (UrlLib.QStr v1))]) =
  _build_target_url path (Some [(k, UrlLib.QScalar (UrlLib.QStr v2))]) ->
  v1 = v2.
Proof.
  unfold _build_target_url, UrlLib.urlencode, UrlLib.pairs_of_entry. simpl.
  intros H. repeat apply append_cancel_l in H.
  apply append_cancel_l with (a := "?") in H.
  repeat apply append_cancel_l in H.
  apply append_cancel_l with (a := "=") in H.
  now apply quote_plus_inj.
Qed.

Lemma plus_chars_length s :
  (String.length s <= String.length (plus_chars s) <= 3 * String.length s)%nat.
Proof.
  induction s as [|a s IH]; simpl; [lia|].
  assert (Hl : forall x y, String.length (x ++ y) =
                           (String.length x + String.length y)%nat).
  { intros x y. induction x; simpl; auto. }
  rewrite Hl.
  destruct (plus_char_cases a) as [[_ E]|[[_ E]|[_ [_ E]]]]; rewrite E;
    simpl; lia.
Qed.

(** Text made of letters, digits and [_.-~] only is its own encoding;
    the encoding of any text has at least as many characters as the text
    has bytes in UTF-8, and at most three times as many. *)
Lemma quote_plus_unreserved s :
  (PyStr.forall_chars UrlLib.always_safe s = true ->
     UrlLib.quote_plus s = s /\ UrlLib.quote "/" s = s) /\
  (String.length s <= String.length (UrlLib.quote_plus s)
                   <= 3 * String.length s)%nat.
Proof.
  split.
  - intros Hsafe. rewrite quote_plus_by_char. split.
    + induction s as [|a s IH]; simpl; auto.
      simpl in Hsafe. apply andb_true_iff in Hsafe. destruct Hsafe as [Ha Hs].
      rewrite IH by assumption.
      destruct (plus_char_cases a) as [[E _]|[[_ E]|[E _]]].
      * subst a. discriminate.
      * now rewrite E.
      * congruence.
    + induction s as [|a s IH]; simpl; auto.
      simpl in Hsafe. apply andb_true_iff in Hsafe. destruct Hsafe as [Ha Hs].
      rewrite IH by assumption. unfold UrlLib.quote_char. now rewrite Ha.
  - rewrite quote_plus_by_char. apply plus_chars_length.
Qed.

(** X15.  A parameter whose name and value are made of letters, digits
    and [_.-~] only appears in the URL as it is, and so does such a
    database name in the login URL.  Whatever the value, its part of the
    URL has at most three characters for each byte of the value's UTF-8
    encoding (a [string] here is the UTF-8 encoding, so [String.length]
    counts bytes: a character outside ASCII takes two to four bytes and
    six to twelve characters of the URL). *)
Theorem unreserved_text_goes_out_verbatim path k v :
  (PyStr.forall_chars UrlLib.always_safe k = true ->
   PyStr.forall_chars UrlLib.always_safe v = true ->
     _build_target_url path (Some [(k, UrlLib.QScalar (UrlLib.QStr v))]) =
     PyStr.rstrip "/" P6_BASE_URL ++ normalize_path path ++ "?" ++
     k ++ "=" ++ v) /\
  (PyStr.forall_chars UrlLib.always_safe v = true ->
     login_url v = P6_BASE_URL ++ "/login?DatabaseName=" ++ v) /\
  (String.length (UrlLib.quote_plus v) <= 3 * String.length v)%nat.
Proof.
  split; [|split].
  - intros Hk Hv.
    unfold _build_target_url, UrlLib.urlencode, UrlLib.pairs_of_entry. simpl.
    destruct (quote_plus_unreserved k) as [Hqk _].
    destruct (quote_plus_unreserved v) as [Hqv _].
    now rewrite (proj1 (Hqk Hk)), (proj1 (Hqv Hv)).
  - intros Hv. unfold login_url.
    destruct (quote_plus_unreserved v) as [Hqv _].
    now rewrite (proj2 (Hqv Hv)).
  - apply quote_plus_unreserved.
Qed.

(** ** The first request of a call *)

Lemma relay_first_event ses_id method url headers data jb w ses :
  get ses_id (sessions w) = Some ses ->
  host_of url = ALLOWED_HOST ->
  exists rest,
    events_since w
      (snd (_upstream_with_retry ses_id method url headers data jb w)) =
    EvRequest method url headers data jb :: rest.
Proof.
  intros Hses Hhost. run_py. rewrite Hses, Hhost, String.eqb_refl. simpl.
  break_match; settle_events w; simpl; eauto.
Qed.

(** X16.  The first upstream request of [POST /call] carries the caller's
    method and the URL built from its path and query.  Its headers are the
    relay's own (Accept and the session's cookie, always) with the
    caller's on top: a header the caller supplies wins over the relay's.
    A body that is a mapping or a sequence goes out as JSON, any other body
    as data, never both. *)
Theorem call_first_request (req : CallRequest) (w : World) sid ses :
  _get_session_id_or_latest (cr_session_id req) w = (Ok sid, w) ->
  get sid (sessions w) = Some ses ->
  host_of (_build_target_url (cr_path req) (cr_query req)) = ALLOWED_HOST ->
  NoDup (keys (match cr_headers req with Some h => h | None => [] end)) ->
  exists h data jb rest,
    events_since w (snd (call req w)) =
      EvRequest (cr_method req)
        (_build_target_url (cr_path req) (cr_query req)) h data jb :: rest /\
    (forall k,
       get k h =
       match get k (match cr_headers req with Some h => h | None => [] end)
       with
       | Some v => Some v
       | None => get k (base_headers ses)
       end) /\
    get "Accept" (base_headers ses) = Some P6_ACCEPT /\
    get "Cookie" (base_headers ses) = Some (cookies ses) /\
    match cr_body req with
    | None => data = None /\ jb = None
    | Some (AnyDictOrList b) => data = None /\ jb = Some (AnyDictOrList b)
    | Some (AnyOther b) => data = Some (AnyOther b) /\ jb = None
    end.
Proof.
  intros Hr Hses Hhost Hnd.
  set (caller := match cr_headers req with Some h => h | None => [] end) in *.
  set (url := _build_target_url (cr_path req) (cr_query req)) in *.
  destruct (relay_first_event sid (cr_method req) url
              (_default_headers ses (Some caller))
              (fst (classify_body (cr_body req)))
              (snd (classify_body (cr_body req))) w ses Hses Hhost)
    as [rest Hev].
  exists (_default_headers ses (Some caller)),
         (fst (classify_body (cr_body req))),
         (snd (classify_body (cr_body req))), rest.
  split; [|split; [|split; [|split]]].
  - rewrite call_run, Hr, Hses. cbv zeta. fold caller url.
    destruct (_upstream_with_retry sid (cr_method req) url
                (_default_headers ses (Some caller))
                (fst (classify_body (cr_body req)))
                (snd (classify_body (cr_body req))) w) as [[r| |] w'];
      exact Hev.
  - intros k. rewrite default_headers_update. now apply get_update.
  - apply base_headers_fixed.
  - apply base_headers_fixed.
  - destruct (cr_body req) as [[b|b]|]; simpl; auto.
Qed.

(** ** Replies that are not what they say *)

(** X17.  A reply (not a 401) whose body does not parse as JSON.
    [GET /obs/find] and [POST /call] answer with the reply's status and
    its text, whatever content type the reply announces.
    [GET /obs/byName] and [GET /projects/list] read the body outside any
    [try]: when the reply has a header spelt exactly [content-type] whose
    value begins with [application/json] they fail with an error that is
    not an HTTP error, and otherwise (no such header, another value, or
    another spelling such as [Content-Type]) they answer with the status
    and the text. *)
Theorem unparsable_json_reply sid ses w r :
  get sid (sessions w) = Some ses ->
  sid <> "" ->
  status_code r <> 401 ->
  json r = JsonInvalid ->
  let answer :=
    mkProxyResponse (status_code r) (resp_headers r) (BodyText (text r)) in
  let strict_outcome : outcome ProxyResponse :=
    if PyStr.startswith "application/json" (out_content_type r)
    then OtherException else Ok answer in
  (forall q fields order_by limit url,
     url = _build_target_url "/obs"
             (Some (with_limit limit
                [("Filter", UrlLib.QScalar (UrlLib.QStr ("Name LIKE '%" ++ q ++ "%'")));
                 ("Fields", UrlLib.QScalar (UrlLib.QStr fields));
                 ("OrderBy", UrlLib.QScalar (UrlLib.QStr order_by))])) ->
     host_of url = ALLOWED_HOST ->
     upstream (trace w)
       (EvRequest "GET" url (_default_headers ses None) None None) = Some r ->
     fst (obs_find (Some sid) q fields order_by limit w) = Ok answer) /\
  (forall req,
     cr_session_id req = Some sid ->
     host_of (_build_target_url (cr_path req) (cr_query req)) = ALLOWED_HOST ->
     upstream (trace w)
       (EvRequest (cr_method req)
          (_build_target_url (cr_path req) (cr_query req))
          (_default_headers ses
             (Some (match cr_headers req with Some h => h | None => [] end)))
          (fst (classify_body (cr_body req)))
          (snd (classify_body (cr_body req)))) = Some r ->
     fst (call req w) = Ok answer) /\
  (forall name fields order_by url,
     url = _build_target_url "/obs"
             (Some [("Filter", UrlLib.QScalar (UrlLib.QStr ("Name='" ++ name ++ "'")));
                    ("Fields", UrlLib.QScalar (UrlLib.QStr fields));
                    ("OrderBy", UrlLib.QScalar (UrlLib.QStr order_by))]) ->
     host_of url = ALLOWED_HOST ->
     upstream (trace w)
       (EvRequest "GET" url (_default_headers ses None) None None) = Some r ->
     fst (obs_by_name (Some sid) name fields order_by w) = strict_outcome) /\
  (forall filter_ fields order_by limit url,
     url = _build_target_url "/project"
             (Some (with_limit limit
                (match provided_truthy filter_ with
                 | Some f =>
                     set "Filter" (UrlLib.QScalar (UrlLib.QStr f))
                       [("Fields", UrlLib.QScalar (UrlLib.QStr fields));
                        ("OrderBy", UrlLib.QScalar (UrlLib.QStr order_by))]
                 | None =>
                     [("Fields", UrlLib.QScalar (UrlLib.QStr fields));
                      ("OrderBy", UrlLib.QScalar (UrlLib.QStr order_by))]
                 end))) ->
     host_of url = ALLOWED_HOST ->
     upstream (trace w)
       (EvRequest "GET" url (_default_headers ses None) None None) = Some r ->
     fst (projects_list (Some sid) filter_ fields order_by limit w) =
     strict_outcome).
Proof.
  intros Hses Hsid Hne Hbad answer strict_outcome.
  assert (Hres : _get_session_id_or_latest (Some sid) w = (Ok sid, w))
    by now apply resolve_explicit.
  assert (Hbody : forall ctype, body_of ctype r = BodyText (text r)).
  { intros ctype. unfold body_of. rewrite Hbad.
    now destruct (PyStr.startswith "application/json" ctype). }
  assert (Hstrict : forall w1,
            fst ((body <- body_of_strict (out_content_type r) r ;;
                  ret (mkProxyResponse (status_code r) (resp_headers r) body))
                   w1) = strict_outcome).
  { intros w1. unfold strict_outcome, body_of_strict, bind, ret, raise_other.
    rewrite Hbad.
    now destruct (PyStr.startswith "application/json" (out_content_type r)). }
  split; [|split; [|split]].
  - intros q fields order_by limit url Hurl Hhost Hup. subst url.
    unfold obs_find. step_with Hres. step_fetch Hses. cbv zeta.
    step_with (relay_pass_run _ _ _ _ _ _ _ _ _ Hses Hhost Hup Hne).
    unfold ret, _json_or_text. cbn [fst]. now rewrite Hbody.
  - intros req Hid Hhost Hup. rewrite call_run, Hid, Hres, Hses. cbv zeta.
    rewrite (relay_pass_run _ _ _ _ _ _ _ _ _ Hses Hhost Hup Hne).
    cbn [fst]. now rewrite Hbody.
  - intros name fields order_by url Hurl Hhost Hup. subst url.
    unfold obs_by_name. step_with Hres. step_fetch Hses. cbv zeta.
    step_with (relay_pass_run _ _ _ _ _ _ _ _ _ Hses Hhost Hup Hne).
    apply Hstrict.
  - intros filter_ fields order_by limit url Hurl Hhost Hup. subst url.
    unfold projects_list. step_with Hres. step_fetch Hses. cbv zeta.
    step_with (relay_pass_run _ _ _ _ _ _ _ _ _ Hses Hhost Hup Hne).
    apply Hstrict.
Qed.

(** ** Projects by OBS *)

(** X18.  [GET /projects/by_obs] with a stored session: without an OBS
    name and without an OBS id it answers 400 and sends nothing; with an
    OBS id it makes no look-up, and a reply to its one request that is not
    a 401 is handed back with its status; with a name only, a look-up
    answered with an error status is handed back and no second request is
    made. *)
Theorem projects_by_obs_cases sid ses w fields order_by limit :
  get sid (sessions w) = Some ses ->
  sid <> "" ->
  (forall obs_name obs_id,
     provided_truthy obs_name = None -> provided_truthy obs_id = None ->
     projects_by_obs (Some sid) obs_name obs_id fields order_by limit w =
     (HTTPException 400 "Provide obs_name or obs_id", w)) /\
  (forall obs_name oid url r,
     oid <> "" ->
     url = _build_target_url "/project"
             (Some (with_limit limit
                [("Fields", UrlLib.QScalar (UrlLib.QStr fields));
                 ("OrderBy", UrlLib.QScalar (UrlLib.QStr order_by));
                 ("Filter", UrlLib.QScalar
                    (UrlLib.QStr ("OBSObjectId='" ++ oid ++ "'")))])) ->
     host_of url = ALLOWED_HOST ->
     upstream (trace w)
       (EvRequest "GET" url (_default_headers ses None) None None) = Some r ->
     status_code r <> 401 ->
     let out := projects_by_obs (Some sid) obs_name (Some oid) fields
                  order_by limit w in
     fst out = Ok (mkProxyResponse (status_code r) (resp_headers r)
                     (_json_or_text r)) /\
     events_since w (snd out) =
       [EvRequest "GET" url (_default_headers ses None) None None]) /\
  (forall name obs_id url r,
     name <> "" -> provided_truthy obs_id = None ->
     url = _build_target_url "/obs"
             (Some [("Filter", UrlLib.QScalar (UrlLib.QStr ("Name='" ++ name ++ "'")));
                    ("Fields", UrlLib.QScalar (UrlLib.QStr "Name,ObjectId"));
                    ("MaxObjects", UrlLib.QScalar (UrlLib.QInt 1))]) ->
     host_of url = ALLOWED_HOST ->
     upstream (trace w)
       (EvRequest "GET" url (_default_headers ses None) None None) = Some r ->
     400 <= status_code r -> status_code r <> 401 ->
     let out := projects_by_obs (Some sid) (Some name) obs_id fields
                  order_by limit w in
     fst out = Ok (mkProxyResponse (status_code r) (resp_headers r)
                     (_json_or_text r)) /\
     events_since w (snd out) =
       [EvRequest "GET" url (_default_headers ses None) None None]).
Proof.
  intros Hses Hsid.
  assert (Hres : _get_session_id_or_latest (Some sid) w = (Ok sid, w))
    by now apply resolve_explicit.
  split; [|split].
  - intros obs_name obs_id Hn Hi.
    unfold projects_by_obs. step_with Hres. step_fetch Hses.
    unfold resolve_obs_id. rewrite Hi, Hn. reflexivity.
  - intros obs_name oid url r Hoid Hurl Hhost Hup Hne out. subst out url.
    assert (Hi : provided_truthy (Some oid) = Some oid)
      by (apply provided_truthy_some; auto).
    unfold projects_by_obs. step_with Hres. step_fetch Hses.
    unfold resolve_obs_id. rewrite Hi.
    erewrite bind_ok by reflexivity. cbv beta iota.
    step_fetch Hses. cbv zeta.
    step_with (relay_pass_run _ _ _ _ _ _ _ _ _ Hses Hhost Hup Hne).
    unfold ret. cbn [fst snd]. settle_events w. auto.
  - intros name obs_id url r Hname Hi Hurl Hhost Hup Hge Hne out.
    subst out url.
    assert (Hn : provided_truthy (Some name) = Some name)
      by (apply provided_truthy_some; auto).
    assert (Hgeb : (status_code r >=? 400) = true) by (apply Z.geb_le; lia).
    unfold projects_by_obs. step_with Hres. step_fetch Hses.
    unfold resolve_obs_id. rewrite Hi, Hn. cbv zeta.
    erewrite (bind_ok (bind _ _)).
    2:{ step_with (relay_pass_run _ _ _ _ _ _ _ _ _ Hses Hhost Hup Hne).
        rewrite Hgeb. reflexivity. }
    unfold ret. cbn [fst snd]. settle_events w. auto.
Qed.

End Agent.

(** * The earlier server, [p6_mcp.py]

    Phase 3 keeps its sessions in the dictionary [SESSIONS], here the
    [sessions] of the world, and never writes a snapshot.  Its allowed host
    is always the host of the base URL.  Its [_upstream_with_retry],
    [_build_target_url], [_default_headers] and [_json_or_text] are those of
    Phase 3.2 word for word, but for the store they read and for one
    argument of every call of [requests]: Phase 3 passes [verify=False],
    Phase 3.2 passes [verify=P6_VERIFY_SSL]. *)

Section Phase3.

Variables P6_BASE_URL P6_ACCEPT P6_VERSION : string.

(** The upstream service as [requests] reaches it with certificate
    verification on ([true]) or off ([false]): with verification on, a call
    to a server whose certificate does not check raises. *)
Variable requests_with : bool -> list event -> event -> option Response.

(** The setting of Phase 3.2; it is off unless the environment says
    otherwise. *)
Variable P6_VERIFY_SSL : bool.

Definition ALLOWED_HOST_phase3 : string := host_of P6_BASE_URL.

(** The relay of Phase 3, every call with [verify=False]. *)
Definition _upstream_with_retry_phase3 :=
  _upstream_with_retry P6_BASE_URL P6_ACCEPT P6_VERSION ALLOWED_HOST_phase3
    (requests_with false).

(** The endpoints of Phase 3.2 on the same service, every call with
    [verify=P6_VERIFY_SSL]. *)
Definition call_phase32 (auto strict : bool) :=
  call P6_BASE_URL P6_ACCEPT P6_VERSION ALLOWED_HOST_phase3 auto strict
    (requests_with P6_VERIFY_SSL).

Definition obs_find_phase32 (auto strict : bool) :=
  obs_find P6_BASE_URL P6_ACCEPT P6_VERSION ALLOWED_HOST_phase3 auto strict
    (requests_with P6_VERIFY_SSL).

Definition _latest_session_id : M (option string) :=
  gets (fun w => latest_of (sessions w)).

(** [POST /call], with a required [session_id]. *)
Definition call_phase3 (session_id : string) (method path : string)
    (query : option (pydict UrlLib.qvalue)) (headers : option (pydict string))
    (body : option pyany) : M ProxyResponse :=
  ses <- fetch_session session_id
           "Invalid or expired session_id. Please login again." ;;
  let url := _build_target_url P6_BASE_URL path query in
  let hs :=
    _default_headers P6_ACCEPT P6_VERSION ses
      (Some (match headers with Some h => h | None => [] end)) in
  let db := classify_body body in
  r <- _upstream_with_retry_phase3 session_id method url hs (fst db) (snd db) ;;
  ret (mkProxyResponse (status_code r) (resp_headers r)
         (body_of (out_content_type r) r)).

(** [GET /obs/find]: [sid = session_id or _latest_session_id()]. *)
Definition obs_find_phase3 (session_id : option string)
    (q fields order_by : string) (limit : option Z) : M ProxyResponse :=
  sid <- match provided_truthy session_id with
         | Some s => ret (Some s)
         | None => _latest_session_id
         end ;;
  match provided_truthy sid with
  | None => raise_http 401 "No valid session. Login and try again."
  | Some sid =>
      ses <- fetch_session sid "No valid session. Login and try again." ;;
      let qparams :=
        [("Filter", UrlLib.QScalar (UrlLib.QStr ("Name LIKE '%" ++ q ++ "%'")));
         ("Fields", UrlLib.QScalar (UrlLib.QStr fields));
         ("OrderBy", UrlLib.QScalar (UrlLib.QStr order_by))] in
      let qparams := with_limit limit qparams in
      let url := _build_target_url P6_BASE_URL "/obs" (Some qparams) in
      let headers := _default_headers P6_ACCEPT P6_VERSION ses None in
      r <- _upstream_with_retry_phase3 sid "GET" url headers None None ;;
      ret (mkProxyResponse (status_code r) (resp_headers r) (_json_or_text r))
  end.

(** X19.  Phase 3.2 with the allowed host left at its default and
    certificate verification off, as it is by default, answers as Phase 3
    did.  [POST /call] with a session identifier that is not empty gives
    the same outcome and the same state, whatever the auto-session
    settings.  [GET /obs/find] with auto-selection on gives the same
    outcome and state too, except that where one refuses for want of a
    session so does the other, both with a 401 and nothing sent (the
    wording of the error differs). *)
Theorem phase32_answers_as_phase3 (auto strict : bool) (w : World) :
  P6_VERIFY_SSL = false ->
  (forall sid method path query headers body,
     sid <> "" ->
     call_phase32 auto strict
       (mkCallRequest (Some sid) method path query headers body) w =
     call_phase3 sid method path query headers body w) /\
  (forall session_id q fields order_by limit,
     let new :=
       obs_find_phase32 true strict session_id q fields order_by limit w in
     let old := obs_find_phase3 session_id q fields order_by limit w in
     new = old \/
     exists d1 d2,
       new = (HTTPException 401 d1, w) /\ old = (HTTPException 401 d2, w)).
Proof.
  intros Hverify. unfold call_phase32, obs_find_phase32. rewrite Hverify.
  split.
  - intros sid method path query headers body Hsid.
    rewrite call_run. simpl.
    rewrite (resolve_explicit auto strict sid w Hsid).
    unfold call_phase3, fetch_session, get_session, bind, gets, ret,
      raise_http. simpl.
    destruct (get sid (sessions w)); reflexivity.
  - intros session_id q fields order_by limit. cbv zeta.
    unfold obs_find, obs_find_phase3.
    destruct (provided_truthy session_id) as [s|] eqn:Ep.
    + left. apply provided_truthy_some in Ep. destruct Ep as [-> Hs].
      erewrite bind_ok by (apply resolve_explicit; exact Hs).
      erewrite (bind_ok (ret (Some s))) by reflexivity.
      assert (Ht : provided_truthy (Some s) = Some s)
        by (apply provided_truthy_some; auto).
      now rewrite Ht.
    + pose proof (resolve_auto_on true strict session_id w Ep eq_refl) as Hr.
      unfold _latest_session_id.
      erewrite (bind_ok (gets _)) by reflexivity.
      destruct (provided_truthy (latest_of (sessions w))) as [s|] eqn:El.
      * left. erewrite bind_ok by (exact Hr). reflexivity.
      * right. unfold bind. rewrite Hr. unfold raise_http. eauto.
Qed.

End Phase3.

(** * Configuration edges *)

Lemma rstrip_trailing_slash s : PyStr.rstrip "/" (s ++ "/") = PyStr.rstrip "/" s.
Proof.
  induction s as [|a s IH]; [reflexivity|].
  change (String a s ++ "/") with (String a (s ++ "/")).
  cbn [PyStr.rstrip]. now rewrite IH.
Qed.

(** X20.  A trailing ['/'] on the configured base URL and a leading ['/']
    on the path make no difference to the URL that is built. *)
Theorem url_ignores_doubled_separator base path query :
  _build_target_url (base ++ "/") path query =
    _build_target_url base path query /\
  (PyStr.startswith "/" path = false ->
     _build_target_url base ("/" ++ path) query =
     _build_target_url base path query).
Proof.
  split.
  - unfold _build_target_url. now rewrite rstrip_trailing_slash.
  - intros Hp. unfold _build_target_url, normalize_path. rewrite Hp.
    replace (PyStr.startswith "/" ("/" ++ path)) with true; [reflexivity|].
    symmetry. unfold PyStr.startswith. simpl. now destruct path.
Qed.

Lemma flat_map_nothing {A B} (f : A -> list B) (l : list A) :
  (forall x, In x l -> f x = []) -> flat_map f l = [].
Proof.
  induction l as [|x l IH]; simpl; auto.
  intros H. rewrite (H x) by auto. apply IH. auto.
Qed.

(** X21.  A query that is not empty but all of whose values are empty
    lists contributes no parameter, yet the question mark is written: the
    URL ends in a bare ['?']. *)
Theorem empty_lists_leave_a_bare_question_mark base path kv params :
  (forall e, In e (kv :: params) -> snd e = UrlLib.QList []) ->
  _build_target_url base path (Some (kv :: params)) =
  PyStr.rstrip "/" base ++ normalize_path path ++ "?".
Proof.
  intros Hempty. unfold _build_target_url, UrlLib.urlencode.
  rewrite flat_map_nothing; [reflexivity|].
  intros e He. unfold UrlLib.pairs_of_entry. now rewrite (Hempty e He).
Qed.

(** X22.  The strict-mode setting changes nothing but the wording of an
    error: with it on or off the resolver returns the same identifier, or
    raises a 401 in both cases, and leaves the world as it is. *)
Theorem strict_mode_only_changes_the_wording (auto : bool) p w :
  match _get_session_id_or_latest auto true p w,
        _get_session_id_or_latest auto false p w with
  | (Ok a, w1), (Ok b, w2) => a = b /\ w1 = w /\ w2 = w
  | (HTTPException s1 _, w1), (HTTPException s2 _, w2) =>
      s1 = 401 /\ s2 = 401 /\ w1 = w /\ w2 = w
  | _, _ => False
  end.
Proof.
  unfold _get_session_id_or_latest, get_latest_session_id, bind, gets, ret,
    raise_http.
  destruct (provided_truthy p); simpl; auto.
  destruct auto; simpl; auto.
  destruct (provided_truthy (latest_of (sessions w))); simpl; auto.
Qed.

(** * The program on the concrete deployment *)

Module Runs.
Import Examples.

Definition relay := _upstream_with_retry base_url accept version allowed_host.
Definition default_headers := _default_headers accept version.
Definition the_login : event :=
  login_event base_url accept version "alice" "secret" "db1".
Definition post_call := call base_url accept version allowed_host true true.
Definition post_login := login base_url accept version.
Definition resolve (auto : bool) := _get_session_id_or_latest auto true.

(** The caller's headers: one of its own and an override of the cookie. *)
Definition caller_headers : pydict string :=
  [("X-Trace", "t1"); ("Cookie", "mine")].

Definition first_headers : pydict string :=
  default_headers remembering (Some caller_headers).

Definition first_request : event :=
  EvRequest "GET" obs_url first_headers None None.

(** The session after a re-login answered by [login_reply]. *)
Definition renewed : Session :=
  mkSession "JSESSIONID=new" VNone (100 # 1) (Some "db1") (Some alice).

Definition second_request : event :=
  EvRequest "GET" obs_url
    [("Accept", "application/json"); ("Cookie", "JSESSIONID=new");
     ("X-Trace", "t1")] None None.

(** *** The retry bound (C1) *)

(** C1, as stated, fails: with remembered credentials and a login that is
    refused, a relay call turned away with a 401 makes one upstream
    request, not two, and returns the reply to it. *)
Lemma refused_relogin_makes_one_request :
  let out := relay upstream_refusing_login "1" "GET" obs_url first_headers
               None None world_remembering in
  creds remembering = Some alice /\
  upstream_refusing_login [] first_request = Some (reply 401) /\
  fst out = Ok (reply 401) /\
  events_since world_remembering (snd out) = [first_request; the_login] /\
  count_requests (events_since world_remembering (snd out)) = 1%nat /\
  count_requests (events_since world_remembering (snd out)) <> 2%nat.
Proof. vm_compute. repeat split; discriminate. Qed.

(** C1: the amended statement on an upstream that accepts the login. *)
Lemma relay_retry_bound_witness :
  let out := relay upstream_accepting_login "1" "GET" obs_url first_headers
               None None world_remembering in
  events_since world_remembering (snd out) =
    [first_request; the_login; second_request] /\
  count_requests (events_since world_remembering (snd out)) = 2%nat /\
  fst out = Ok (reply 401).
Proof.
  destruct (relay_retry_bound base_url accept version allowed_host
              upstream_accepting_login "1" "GET" obs_url first_headers
              None None world_remembering) as [_ H].
  specialize (H remembering (reply 401) eq_refl eq_refl eq_refl eq_refl).
  destruct H as [_ [Hev [Hcount Hres]]].
  split; [exact Hev|]. split; [exact Hcount|].
  exact (Hres (reply 401) eq_refl).
Defined.

(** *** The host allowlist (C2) *)

Definition stray_call : CallRequest :=
  mkCallRequest (Some "1") "GET" "/obs" None None None.


(** *** Session identifiers (C3) *)

(** C3, as stated, fails: two logins within one millisecond answer with
    the same identifier, and the store holds one session, not two. *)
Lemma same_millisecond_logins_collide :
  let first := post_login upstream_accepting_login clock_still login_request
                 world_empty in
  let second := post_login upstream_accepting_login clock_still login_request
                  (snd first) in
  (exists r1 r2,
     fst first = Ok r1 /\ fst second = Ok r2 /\
     lresp_session_id r1 = "1730671234001" /\
     lresp_session_id r2 = "1730671234001") /\
  keys (sessions (snd first)) = ["1730671234001"] /\
  keys (sessions (snd second)) = ["1730671234001"].
Proof.
  vm_compute. split; [|split; reflexivity].
  eexists. eexists. repeat split; reflexivity.
Qed.

(** The millisecond count is that of the rounded product: at this reading
    the exact product lies just below 1730671234001 and the double
    nearest to it is 1730671234001. *)
Lemma millisecond_count_of_a_double :
  millis (clock_still 0) = 1730671234001 /\
  int_of_float (clock_still 0 * 1000)%Q = 1730671234000 /\
  (round_to_double (clock_still 0 * 1000) == inject_Z 1730671234001)%Q.
Proof. repeat split; vm_compute; reflexivity. Qed.

(** C3: the amended statement for two logins two seconds apart. *)
Lemma login_ids_follow_the_clock_witness :
  let first := post_login upstream_accepting_login clock_running login_request
                 world_empty in
  let second := post_login upstream_accepting_login clock_running login_request
                  (snd first) in
  keys (sessions (snd second)) = ["1000000"; "1002000"] /\
  mem "1000000" (sessions (snd second)) = true /\
  mem "1002000" (sessions (snd second)) = true.
Proof.
  split; [reflexivity|].
  destruct (login_ids_follow_the_clock base_url accept version
              upstream_accepting_login clock_running login_request
              login_request world_empty
              (snd (post_login upstream_accepting_login clock_running
                      login_request world_empty))
              (snd (post_login upstream_accepting_login clock_running
                      login_request
                      (snd (post_login upstream_accepting_login clock_running
                              login_request world_empty))))
              (mkLoginResponse "1000000" "JSESSIONID=new" VNone true)
              (mkLoginResponse "1002000" "JSESSIONID=new" VNone true)
              eq_refl eq_refl) as [_ [_ [H _]]].
  destruct H as [_ [_ [H1 H2]]]; [vm_compute; discriminate|].
  split; [exact H1 | exact H2].
Defined.

(** *** The latest session (C4) *)

(** C4, as stated, fails: of two sessions with the same creation timestamp
    the one stored first is returned, not the one stored last. *)
Lemma tie_goes_to_first_inserted :
  let w := snd (add_session "2" forgetful
                  (snd (add_session "1" forgetful world_empty))) in
  keys (sessions w) = ["1"; "2"] /\
  get "1" (sessions w) = Some forgetful /\
  get "2" (sessions w) = Some forgetful /\
  fst (get_latest_session_id w) = Ok (Some "1") /\
  fst (get_latest_session_id w) <> Ok (Some "2").
Proof. vm_compute. repeat split; discriminate. Qed.

(** *** The snapshot after a re-login (C5) *)

(** C5 fails on the code.  A store in step with its snapshot; a call is
    turned away, the relay logs in again and writes the new cookie and
    token into the session.  The snapshot still holds the old ones: the
    relay changes the session without [_save_to_disk], which
    [add_session], [remove_session] and [clear_all] all call. *)
Theorem relogin_leaves_snapshot_stale :
  let w := world_remembering in
  let out := post_call upstream_accepting_login stray_call w in
  disk w = Some (sessions w) /\
  disk_writable w = true /\
  get "1" (sessions (snd out)) = Some renewed /\
  disk (snd out) = Some [("1", remembering)] /\
  disk (snd out) <> Some (sessions (snd out)).
Proof. vm_compute. repeat split; discriminate. Qed.

(** *** Session resolution (C6) *)

(** C6, as stated, fails: the empty string, supplied as the identifier, is
    not returned; it counts as no identifier. *)
Lemma empty_identifier_is_not_returned :
  resolve true (Some "") world_remembering = (Ok "1", world_remembering) /\
  resolve true (Some "") world_remembering <> (Ok "", world_remembering) /\
  resolve false (Some "") world_remembering =
    (HTTPException 401 "session_id required (AUTO_SESSION_ENABLED is disabled)",
     world_remembering).
Proof. vm_compute. repeat split; discriminate. Qed.

(** C6: the amended statement on a store with one session. *)
Lemma session_resolution_policy_witness :
  resolve true (Some "gone") world_remembering = (Ok "gone", world_remembering) /\
  resolve true None world_remembering = (Ok "1", world_remembering) /\
  (exists active,
     fst (session_active utc_text world_remembering) = Ok active /\
     as_session_id active = "1" /\
     as_created_at active = "1970-01-01 00:01:40 UTC") /\
  (exists d,
     post_call upstream_accepting_login
       (mkCallRequest (Some "gone") "GET" "/obs" None None None)
       world_remembering = (HTTPException 401 d, world_remembering)) /\
  post_call upstream_accepting_login
    (mkCallRequest None "GET" "/obs" None None None) world_remembering =
  post_call upstream_accepting_login
    (mkCallRequest (Some "1") "GET" "/obs" None None None) world_remembering.
Proof.
  destruct (session_resolution_policy base_url accept version allowed_host
              true true upstream_accepting_login utc_text (Some "gone")
              world_remembering) as [Hexplicit [_ [Hcall _]]].
  split; [apply (Hexplicit "gone" eq_refl); discriminate|].
  destruct (session_resolution_policy base_url accept version allowed_host
              true true upstream_accepting_login utc_text None
              world_remembering) as [_ [Hauto _]].
  destruct (Hauto (or_introl eq_refl)) as [_ [Hon _]].
  destruct (Hon eq_refl) as [Hlatest Hactive].
  split; [exact (Hlatest "1" ltac:(discriminate) eq_refl)|].
  split; [eexists; repeat split; reflexivity|].
  destruct (Hcall "GET" "/obs" None None None) as [Hfirst _].
  split.
  - exact (proj2 (Hfirst (Some "gone") world_remembering) eq_refl).
  - exact (proj1 (Hfirst None world_remembering)).
Defined.

(** Where the creation time of the latest session cannot be formatted,
    [GET /session/active] fails and the resolver still names the
    session. *)
Lemma unformattable_latest_session :
  let w := store_of [("1", forgetful); ("9", MoreExamples.far_future)] in
  session_active utc_text w = (OtherException, w) /\
  resolve true None w = (Ok "9", w).
Proof. vm_compute. split; reflexivity. Qed.

(** *** A refused re-login (C7) *)

(** C7: the statement on an upstream that refuses the login. *)
Lemma relay_keeps_session_on_failed_relogin_witness :
  let out := relay upstream_refusing_login "1" "GET" obs_url first_headers
               None None world_remembering in
  fst out = Ok (reply 401) /\
  get "1" (sessions (snd out)) = Some remembering.
Proof.
  destruct (relay_keeps_session_on_failed_relogin base_url accept version
              allowed_host upstream_refusing_login "1" "GET" obs_url
              first_headers None None world_remembering remembering
              (reply 401) alice (reply 403)
              eq_refl eq_refl eq_refl eq_refl eq_refl eq_refl)
    as [Hres [_ [Hses _]]]; [vm_compute; discriminate|].
  split; [exact Hres | exact Hses].
Defined.

(** *** The headers of the retry (C8) *)




(** *** The target URL (C9) *)

(** C9, as stated, fails: a path with a question mark gives, without any
    query parameters, a URL with a question mark; and a path that begins
    with two separators keeps both. *)
Lemma url_without_query_may_hold_question_mark :
  _build_target_url base_url "a?b" None =
    "https://p6.example.com/p6ws/restapi/a?b" /\
  PyStr.contains_char "?" (_build_target_url base_url "a?b" None) = true /\
  _build_target_url base_url "//x" None =
    "https://p6.example.com/p6ws/restapi//x".
Proof. vm_compute. repeat split. Qed.

(** C9: the amended statement on the two URLs of the specification. *)
Lemma target_url_shape_witness :
  _build_target_url "https://p6.example.com/p6ws/restapi/" "projects/123" None =
    "https://p6.example.com/p6ws/restapi/projects/123" /\
  _build_target_url base_url "/obs"
    (Some [("Filter", UrlLib.QScalar (UrlLib.QStr "Name='X'"))]) =
    "https://p6.example.com/p6ws/restapi/obs?Filter=Name%3D%27X%27".
Proof.
  destruct (target_url_shape "https://p6.example.com/p6ws/restapi/"
              "projects/123" None) as [[_ [_ Hpre]] [[Hurl _] _]].
  split.
  - rewrite Hurl, (Hpre eq_refl). reflexivity.
  - destruct (target_url_shape base_url "/obs"
                (Some [("Filter", UrlLib.QScalar (UrlLib.QStr "Name='X'"))]))
      as [[_ [Hkeep _]] [[Hurl2 _] Henc]].
    rewrite Hurl2, (Hkeep eq_refl), Henc. reflexivity.
Defined.

(** *** Credentials after a re-login (C10) *)



(** A token that is not a string is written into the session as it is. *)
Lemma numeric_token_is_stored :
  let out := relay (rejecting MoreExamples.login_reply_numeric) "1" "GET"
               obs_url first_headers None None world_remembering in
  exists ses',
    get "1" (sessions (snd out)) = Some ses' /\
    auth_token ses' = VOther true "123".
Proof. vm_compute. eexists. split; reflexivity. Qed.

End Runs.

(** * The further properties on the concrete deployment *)

Module MoreRuns.
Import Examples MoreExamples Runs.

(** X1: an upstream that answers 500. *)
Lemma relay_passes_other_statuses_through_witness :
  let out := relay (answering (reply 500)) "1" "GET" obs_url first_headers
               None None world_remembering in
  fst out = Ok (reply 500) /\
  events_since world_remembering (snd out) = [first_request].
Proof.
  destruct (relay_passes_other_statuses_through base_url accept version
              allowed_host (answering (reply 500)) "1" "GET" obs_url
              first_headers None None world_remembering remembering
              (reply 500) eq_refl eq_refl eq_refl)
    as [Hres [Hev _]]; [vm_compute; discriminate|].
  split; [exact Hres | exact Hev].
Defined.

(** X3: removing the only session, and once more. *)
Lemma remove_session_is_idempotent_witness :
  let w1 := snd (remove_session "1" world_forgetful) in
  get "1" (sessions w1) = None /\ remove_session "1" w1 = (Ok tt, w1).
Proof.
  destruct (remove_session_is_idempotent "1" world_forgetful) as [_ H].
  destruct H as [_ [Hgone [_ Hagain]]].
  - repeat constructor. simpl. tauto.
  - split; [exact Hgone | exact Hagain].
Defined.

(** X4: deleting an unknown identifier. *)
Lemma delete_session_endpoint_witness :
  delete_session "nope" world_forgetful =
  (HTTPException 404 "Session not found", world_forgetful).
Proof.
  exact (proj1 (delete_session_endpoint "nope" world_forgetful) eq_refl).
Defined.

(** X5: a login that asks to remember the credentials. *)
Lemma login_stores_what_it_reports_witness :
  let w' := snd (post_login upstream_accepting_login clock_running
                   login_request world_forgetful) in
  events_since world_forgetful w' = [the_login] /\
  get "1" (sessions w') = Some forgetful /\
  exists ses, get "1000000" (sessions w') = Some ses /\
              creds ses = Some alice.
Proof.
  destruct (login_stores_what_it_reports base_url accept version
              upstream_accepting_login clock_running login_request
              world_forgetful
              (mkLoginResponse "1000000" "JSESSIONID=new" VNone true)
              (snd (post_login upstream_accepting_login clock_running
                      login_request world_forgetful))
              eq_refl) as [_ [_ [[ses [Hget [_ [_ [_ Hcreds]]]]] [Hother Hev]]]].
  split; [exact Hev|]. split.
  - rewrite (Hother "1"); [reflexivity | discriminate].
  - exists ses. split; [exact Hget | exact Hcreds].
Defined.

(** X6: a login answered 403, and one answered with a number for the
    token. *)
Lemma refused_login_creates_nothing_witness :
  (exists d,
     fst (post_login upstream_refusing_login clock_running login_request
            world_forgetful) = HTTPException 403 d) /\
  clock_reads (snd (post_login upstream_refusing_login clock_running
                      login_request world_forgetful)) = 0%nat /\
  let out := post_login (rejecting login_reply_numeric) clock_running
               login_request world_forgetful in
  fst out = OtherException /\
  (0 < clock_reads (snd out))%nat /\
  sessions (snd out) = [("1", forgetful)].
Proof.
  destruct (refused_login_creates_nothing base_url accept version
              upstream_refusing_login clock_running login_request
              world_forgetful) as [H _].
  destruct (H (reply 403) eq_refl) as [Hd Hclock]; [vm_compute; discriminate|].
  split; [exact Hd|]. split; [exact Hclock|].
  destruct (refused_login_creates_nothing base_url accept version
              (rejecting login_reply_numeric) clock_running login_request
              world_forgetful) as [_ [_ [Hnum Hfail]]].
  destruct (Hnum login_reply_numeric eq_refl) as [Hout Hread];
    [vm_compute; reflexivity | reflexivity |].
  split; [exact Hout|]. split; [exact Hread|].
  apply Hfail. intros resp Hok.
  rewrite Hout in Hok. discriminate.
Defined.

(** X7: clearing a store whose file can be written. *)
Lemma store_operations_write_the_snapshot_witness :
  disk (snd (clear_all_sessions world_remembering)) = Some [] /\
  disk (snd (add_session "2" forgetful world_remembering)) =
    Some [("1", remembering); ("2", forgetful)].
Proof.
  destruct (store_operations_write_the_snapshot base_url accept version
              upstream_accepting_login clock_running world_remembering eq_refl)
    as [_ [Hadd [_ [Hclear _]]]].
  split; [exact Hclear | exact (Hadd "2" forgetful)].
Defined.

(** X8: a store whose file cannot be written. *)
Lemma unwritable_snapshot_is_not_fatal_witness :
  fst (add_session "2" forgetful world_unwritable) = Ok tt /\
  sessions (snd (add_session "2" forgetful world_unwritable)) =
    [("1", forgetful); ("2", forgetful)] /\
  disk (snd (add_session "2" forgetful world_unwritable)) = None.
Proof.
  destruct (unwritable_snapshot_is_not_fatal world_unwritable eq_refl)
    as [Hadd _].
  exact (Hadd "2" forgetful).
Defined.

(** X9: two sessions, stored in either order. *)
Lemma latest_ignores_order_witness :
  latest_of [("1", older); ("2", newer)] =
  latest_of [("2", newer); ("1", older)].
Proof.
  apply latest_ignores_order.
  - apply perm_swap.
  - intros x y [<-|[<-|[]]] [<-|[<-|[]]] H; try reflexivity;
      vm_compute in H; discriminate.
Defined.

(** X10: a login into a store that holds an older session. *)
Lemma login_becomes_the_active_session_witness :
  let w' := snd (post_login upstream_accepting_login clock_running
                   login_request world_forgetful) in
  session_active utc_text w' =
    (Ok (mkActiveSession "1000000" "1970-01-01 00:16:41 UTC" true
           (Some "db1")), w') /\
  resolve true None w' = (Ok "1000000", w').
Proof.
  apply (login_becomes_the_active_session base_url accept version true true
           upstream_accepting_login clock_running utc_text login_request
           world_forgetful
           (mkLoginResponse "1000000" "JSESSIONID=new" VNone true)
           (snd (post_login upstream_accepting_login clock_running
                   login_request world_forgetful))
           eq_refl); [|reflexivity].
  intros kv [<-|[]]. vm_compute. reflexivity.
Defined.

(** X12: the base URL of the deployment and a path that names a host. *)
Lemma built_urls_keep_the_base_host_witness :
  DEFAULT_ALLOWED_HOST base_url = "p6.example.com" /\
  host_of (_build_target_url base_url "//evil.example.com/x" None) =
    "p6.example.com".
Proof.
  destruct (built_urls_keep_the_base_host base_url accept version
              allowed_host true true upstream_accepting_login
              "https:" "p6.example.com" "/p6ws/restapi"
              eq_refl eq_refl eq_refl)
    as [Hd [Hb _]]; [discriminate | right; reflexivity |].
  split; [exact Hd | apply Hb].
Defined.

(** X13: a relay call for a session the store does not hold. *)
Lemma relay_raises_only_401_and_400_witness :
  snd (relay upstream_accepting_login "nope" "GET" obs_url first_headers
         None None world_remembering) = world_remembering.
Proof.
  exact (proj2 (relay_raises_only_401_and_400 base_url accept version
                  allowed_host upstream_accepting_login "nope" "GET" obs_url
                  first_headers None None world_remembering 401
                  "Invalid or expired session_id. Please login again."
                  eq_refl)).
Defined.

(** X14: one URL, one filter. *)
Lemma built_url_determines_the_value_witness :
  _build_target_url base_url "/obs"
    (Some [("Filter", UrlLib.QScalar (UrlLib.QStr "Name='X Y'"))]) =
    "https://p6.example.com/p6ws/restapi/obs?Filter=Name%3D%27X+Y%27" /\
  "Name='X Y'" = "Name='X Y'".
Proof.
  split; [reflexivity|].
  exact (built_url_determines_the_value base_url "/obs" "Filter"
           "Name='X Y'" "Name='X Y'" eq_refl).
Defined.

(** X15: a parameter made of unreserved characters. *)
Lemma unreserved_text_goes_out_verbatim_witness :
  _build_target_url base_url "/obs"
    (Some [("Fields", UrlLib.QScalar (UrlLib.QStr "Project_1.2-a~b"))]) =
  "https://p6.example.com/p6ws/restapi/obs?Fields=Project_1.2-a~b".
Proof.
  destruct (unreserved_text_goes_out_verbatim base_url "/obs" "Fields"
              "Project_1.2-a~b") as [H _].
  rewrite H; reflexivity.
Defined.

(** X16: a call that overrides the cookie. *)
Lemma call_first_request_witness :
  exists h data jb rest,
    events_since world_remembering
      (snd (post_call (answering (reply 200)) override_call
              world_remembering)) =
      EvRequest "GET" obs_url h data jb :: rest /\
    get "Cookie" h = Some "mine" /\
    get "Accept" h = Some "application/json".
Proof.
  destruct (call_first_request base_url accept version allowed_host true true
              (answering (reply 200)) override_call world_remembering
              "1" remembering eq_refl eq_refl eq_refl)
    as [h [data [jb [rest [Hev [Hget _]]]]]].
  - repeat constructor; simpl; intuition discriminate.
  - exists h, data, jb, rest. split; [exact Hev|].
    split; rewrite Hget; reflexivity.
Defined.

(** X17: a reply that announces JSON and is none, with the header name
    in lower case and in its usual spelling. *)
Lemma unparsable_json_reply_witness :
  fst (obs_by_name base_url accept version allowed_host true true
         (answering reply_not_json) (Some "1") "Root" "Name" ""
         world_forgetful) = OtherException /\
  fst (obs_find base_url accept version allowed_host true true
         (answering reply_not_json) (Some "1") "Root" "Name" "Name" None
         world_forgetful) =
  Ok (mkProxyResponse 200 [("content-type", "application/json")]
        (BodyText "oops")) /\
  fst (obs_by_name base_url accept version allowed_host true true
         (answering reply_not_json_capitals) (Some "1") "Root" "Name" ""
         world_forgetful) =
  Ok (mkProxyResponse 200 [("Content-Type", "application/json")]
        (BodyText "oops")).
Proof.
  destruct (unparsable_json_reply base_url accept version allowed_host true
              true (answering reply_not_json) "1" forgetful world_forgetful
              reply_not_json eq_refl)
    as [Hfind [_ [Hname _]]];
    try reflexivity; try discriminate.
  destruct (unparsable_json_reply base_url accept version allowed_host true
              true (answering reply_not_json_capitals) "1" forgetful
              world_forgetful reply_not_json_capitals eq_refl)
    as [_ [_ [Hcapitals _]]];
    try reflexivity; try discriminate.
  split; [|split].
  - exact (Hname "Root" "Name" "" _ eq_refl eq_refl eq_refl).
  - exact (Hfind "Root" "Name" "Name" None _ eq_refl eq_refl eq_refl).
  - exact (Hcapitals "Root" "Name" "" _ eq_refl eq_refl eq_refl).
Defined.

(** X18: neither an OBS name nor an OBS id. *)
Lemma projects_by_obs_cases_witness :
  projects_by_obs base_url accept version allowed_host true true
    upstream_accepting_login (Some "1") None (Some "") "Name" "Name" None
    world_forgetful =
  (HTTPException 400 "Provide obs_name or obs_id", world_forgetful).
Proof.
  destruct (projects_by_obs_cases base_url accept version allowed_host true
              true upstream_accepting_login "1" forgetful world_forgetful
              "Name" "Name" None eq_refl) as [H _]; [discriminate|].
  exact (H None (Some "") eq_refl eq_refl).
Defined.

(** An upstream whose certificate does not check: calls that verify it
    raise, the others are answered. *)
Definition self_signed (verify : bool) (history : list event) (e : event)
  : option Response :=
  if verify then None else upstream_accepting_login history e.

(** X19: the same call on both servers, verification off. *)
Lemma phase32_answers_as_phase3_witness :
  call_phase32 base_url accept version self_signed false false true
    (mkCallRequest (Some "1") "GET" "/obs" None None None) world_forgetful =
  call_phase3 base_url accept version self_signed
    "1" "GET" "/obs" None None None world_forgetful.
Proof.
  destruct (phase32_answers_as_phase3 base_url accept version
              self_signed false false true world_forgetful eq_refl) as [H _].
  apply H. discriminate.
Defined.

(** With verification on the two servers part ways on that upstream. *)
Lemma verification_sets_the_servers_apart :
  fst (call_phase32 base_url accept version self_signed true false true
         (mkCallRequest (Some "1") "GET" "/obs" None None None)
         world_forgetful) = OtherException /\
  fst (call_phase3 base_url accept version self_signed
         "1" "GET" "/obs" None None None world_forgetful) =
  Ok (mkProxyResponse 401 [] (BodyText "")).
Proof. vm_compute. split; reflexivity. Qed.

(** X20: the base URL with a trailing separator. *)
Lemma url_ignores_doubled_separator_witness :
  _build_target_url (base_url ++ "/") "obs" None =
  _build_target_url base_url "/obs" None.
Proof.
  destruct (url_ignores_doubled_separator base_url "obs" None) as [H1 H2].
  rewrite H1. symmetry. apply H2. reflexivity.
Defined.

(** X21: a query with an empty list for its only value. *)
Lemma empty_lists_leave_a_bare_question_mark_witness :
  _build_target_url base_url "/obs" (Some [("Fields", UrlLib.QList [])]) =
  "https://p6.example.com/p6ws/restapi/obs?".
Proof.
  rewrite empty_lists_leave_a_bare_question_mark; [reflexivity|].
  intros e [<-|[]]. reflexivity.
Defined.

End MoreRuns.
